(** * Reservation API: request orchestration and risk verification

    A shallow embedding of the reservation server (server.ts), of the
    reCAPTCHA v3 helper (recaptcha.ts) and of the mailer (mailer.ts),
    with the properties of the orchestration pipeline proved over it.
    Each file is embedded in its current version: the server that calls
    the reCAPTCHA helper, and the helper that arms a timer.

    Conventions of the embedding.
    - A JavaScript string is a [string]; its characters are read as code
      units below 256, so [String.length] is the JavaScript [length].  The
      Greek messages of the source are kept as opaque constants.
    - A JavaScript number is a [number]: a rational, an infinity or NaN.
      Every double is one of these and [<] on doubles is [<] on them.
    - [undefined] is [None]; a parsed JSON value is a [json].
    - An [async] function is a computation in the monad [IO]: it returns
      the list of the external calls it made, in order, and either the
      value it resolved with or the exception it rejected with.
    - What the outside world answers (the network, the database, the file
      system, the SMTP server) is read from a [World]. *)

From Stdlib Require Import String Ascii List Bool Lia DecimalString.
From Stdlib Require Import ZArith NArith QArith Qround.
Import ListNotations.

Local Close Scope Q_scope.
Local Open Scope nat_scope.
Local Open Scope string_scope.
Local Open Scope list_scope.

(** ** JavaScript values *)

Module Js.

Inductive number : Type :=
| NaN
| NegInf
| PosInf
| Fin (q : Q).

(** [a < b] on numbers; every comparison with NaN is false. *)
Definition lt (a b : number) : bool :=
  match a, b with
  | NaN, _ | _, NaN => false
  | _, NegInf => false
  | NegInf, _ => true
  | PosInf, _ => false
  | Fin _, PosInf => true
  | Fin x, Fin y => negb (Qle_bool y x)
  end.

#[local] Set Warnings "-register-all".

Inductive json : Type :=
| JNull
| JBool (b : bool)
| JNum (n : number)
| JStr (s : string)
| JArr (xs : list json)
| JObj (fields : list (string * json)).

Fixpoint assoc {A : Type} (k : string) (kvs : list (string * A)) : option A :=
  match kvs with
  | [] => None
  | (k', v) :: rest => if String.eqb k k' then Some v else assoc k rest
  end.

(** [v?.k]: reading a data property.  None of the keys read by this
    program is a built-in property of a string, a number, a boolean or
    an array, so only objects answer. *)
Definition get (v : option json) (k : string) : option json :=
  match v with
  | Some (JObj fields) => assoc k fields
  | _ => None
  end.

(** [v === undefined || v === null] *)
Definition nullish (v : option json) : bool :=
  match v with
  | None | Some JNull => true
  | _ => false
  end.

(** [a ?? b] *)
Definition coalesce (a : option json) (b : json) : json :=
  match a with
  | None | Some JNull => b
  | Some v => v
  end.

Definition str_truthy (s : string) : bool := negb (String.eqb s "").

Definition num_truthy (n : number) : bool :=
  match n with
  | NaN => false
  | Fin q => negb (Qeq_bool q 0)
  | _ => true
  end.

(** [!!v] *)
Definition truthy (v : option json) : bool :=
  match v with
  | None | Some JNull => false
  | Some (JBool b) => b
  | Some (JNum n) => num_truthy n
  | Some (JStr s) => str_truthy s
  | Some (JArr _) | Some (JObj _) => true
  end.

(** [a || null] *)
Definition or_null (a : option json) : json :=
  match a with
  | Some v => if truthy a then v else JNull
  | None => JNull
  end.

(** [!!s] for [s : string | undefined] *)
Definition opt_truthy (s : option string) : bool :=
  match s with
  | Some s => str_truthy s
  | None => false
  end.

(** [a || b] on strings that may be undefined. *)
Definition or_str (a b : option string) : option string :=
  if opt_truthy a then a else b.

(** [v === "s"] *)
Definition is_str (v : option json) (s : string) : bool :=
  match v with
  | Some (JStr s') => String.eqb s' s
  | _ => false
  end.

(** [typeof v === "number" ? v : undefined] and its siblings. *)
Definition as_number (v : option json) : option number :=
  match v with Some (JNum n) => Some n | _ => None end.

Definition as_string (v : option json) : option string :=
  match v with Some (JStr s) => Some s | _ => None end.

(** [Array.isArray(v) ? v : []] *)
Definition as_array (v : option json) : list json :=
  match v with Some (JArr xs) => xs | _ => [] end.

(** White space among the code units below 256. *)
Definition is_space (c : ascii) : bool :=
  let n := nat_of_ascii c in
  ((9 <=? n) && (n <=? 13) || (n =? 32) || (n =? 160))%nat.

Fixpoint trimStart (s : string) : string :=
  match s with
  | String c rest => if is_space c then trimStart rest else s
  | EmptyString => EmptyString
  end.

Definition reverse (s : string) : string :=
  string_of_list_ascii (rev (list_ascii_of_string s)).

Definition trimEnd (s : string) : string := reverse (trimStart (reverse s)).

Definition trim (s : string) : string := trimEnd (trimStart s).

(** [s.split(",")] *)
Fixpoint split_comma_aux (s : string) (cur : list ascii) : list string :=
  match s with
  | EmptyString => [string_of_list_ascii (rev cur)]
  | String c rest =>
      if Ascii.eqb c ","%char
      then string_of_list_ascii (rev cur) :: split_comma_aux rest []
      else split_comma_aux rest (c :: cur)
  end.

Definition split_comma (s : string) : list string := split_comma_aux s [].

(** [xs.includes(s)] *)
Definition includes (xs : list string) (s : string) : bool :=
  existsb (String.eqb s) xs.

End Js.

Import Js.

(** ** Exceptions, external calls and the [IO] monad *)

Inductive Exn : Type :=
| Error (message : string)       (* throw new Error(message) *)
| TypeError (message : string)   (* a property read on undefined or null *)
| Rejected (callee : string).    (* an external call threw or rejected *)

(** An argument of [pool.query]. *)
Inductive SqlArg : Type :=
| SqlText (s : string)
| SqlBool (b : bool).

Record Attachment : Type := {
  filename : string;
  content : string;
  cid : string
}.

(** The argument of [transporter.sendMail]. *)
Record MailMessage : Type := {
  from : string;
  to : option json;
  replyTo : string;
  subject : option string;
  html : string;
  text : string;
  attachments : list Attachment
}.

(** The calls that leave the process, and the time spent waiting. *)
Inductive Event : Type :=
| EvFetch (url : string) (body : list (string * string))
| EvAwaited (ms : N)             (* an await that lasted [ms] milliseconds *)
| EvAbort                        (* the timer ran [ac.abort()] *)
| EvQuery (sql : string) (args : list SqlArg)
| EvLog (line : string)
| EvSendMail (message : MailMessage).

Definition IO (A : Type) : Type := list Event * (Exn + A).

Definition ret {A : Type} (a : A) : IO A := ([], inr a).

Definition throw {A : Type} (e : Exn) : IO A := ([], inl e).

Definition emit (ev : Event) : IO unit := ([ev], inr tt).

Definition bind {A B : Type} (c : IO A) (k : A -> IO B) : IO B :=
  match c with
  | (t, inl e) => (t, inl e)
  | (t, inr a) => let (t', r) := k a in (t ++ t', r)
  end.

Notation "x <- c ;; k" := (bind c (fun x => k))
  (at level 61, c at next level, right associativity).
Notation "c ;;; k" := (bind c (fun _ => k))
  (at level 61, right associativity).

(** [try { c } catch { h }] *)
Definition try_catch {A : Type} (c : IO A) (h : Exn -> IO A) : IO A :=
  match c with
  | (t, inl e) => let (t', r) := h e in (t ++ t', r)
  | (t, inr a) => (t, inr a)
  end.

Definition trace {A : Type} (c : IO A) : list Event := fst c.
Definition outcome {A : Type} (c : IO A) : Exn + A := snd c.

(** ** The outside world *)

(** How [fetch] followed by [resp.json()] ends when nothing aborts it. *)
Inductive FetchSettle : Type :=
| Resolves (parsed : json)
| Rejects (name : option string).   (* the [e?.name] of what was thrown *)

(** The network between this process and the scoring service: when the
    exchange would be over (never, for [None]), how, and who runs first
    when it is over in the very millisecond the timer is due. *)
Record Wire : Type := {
  arrives : option N;
  settle : FetchSettle;
  timer_wins_tie : bool
}.

Inductive QueryOutcome : Type :=
| QueryRows (rows : list json)
| QueryThrows.

(** What [parsePhoneNumberFromString] returns. *)
Record PhoneNumber : Type := {
  isValid : bool;
  number_ : string    (* [phoneParsed.number], E.164 *)
}.

(** A zod issue, by its code. *)
Inductive Issue : Type :=
| invalid_type
| too_small
| too_big
| invalid_string.

(** Library functions the program calls and does not define. *)
Record Lib : Type := {
  js_Number : string -> number;                    (* Number(s) *)
  js_String : option json -> string;               (* String(v), `${v}` *)
  JSON_stringify : json -> string;
  isEmail : string -> bool;                        (* zod: z.string().email() *)
  parsePhoneNumberFromString : string -> string -> option PhoneNumber;
  path_join : list string -> string;
  zod_message : Issue -> string
}.

Record World : Type := {
  fetch : string -> list (string * string) -> Wire;
  query : string -> list SqlArg -> QueryOutcome;
  QRCode_toBuffer : option json -> option string;
  existsSync : string -> bool;
  readFileSync : string -> option string;
  Handlebars : string -> list (string * option json) -> option string;
  sendMail : MailMessage -> bool;                  (* false: it rejects *)
  cwd : string;
  dirname : string
}.

(** [process.env] *)
Record Env : Type := {
  env_RECAPTCHA_SECRET_KEY : option string;
  env_RECAPTCHA_MIN_SCORE : option string;
  env_RECAPTCHA_EXPECTED_ACTION : option string;
  env_RECAPTCHA_ALLOWED_HOSTNAMES : option string;
  env_BASE_URL : option string
}.

(** ** Requests and responses *)

(** [req.body] of [POST /createReservation].  The four identity fields
    are whatever the client sent: [UserSchema] checks them.  [recaptcha]
    and [recaptcha_action] have the type server.ts casts them to,
    [string | undefined], with [null] read as [undefined]. *)
Module Body.
Record t : Type := {
  name : option json;
  surname : option json;
  email : option json;
  phone : option json;
  recaptcha : option string;
  recaptcha_action : option string;
  date : option json;
  time : option json;
  production : option json;
  theater : option json;
  num_seats : option json;
  known_from : option json;
  referer : option json;
  reserved_by : option json
}.
End Body.

(** [parsed.data] *)
Module UserData.
Record t : Type := {
  name : string;
  surname : string;
  email : string;
  phone : string
}.
End UserData.

Record Request : Type := {
  body : Body.t;
  ip : option string;       (* req.ip *)
  id : string               (* req.params.id *)
}.

(** [res.status(status).json(payload)] *)
Record Response : Type := {
  status : nat;
  payload : json
}.

Section Program.

Variable lib : Lib.
Variable world : World.
Variable env : Env.

(** ** recaptcha.ts *)

(** [type VerifyOptions] *)
Record VerifyOptions : Type := {
  remoteip : option string;
  expectedAction : option string;
  timeoutMs : option number
}.

(** The optional keys of a [RecaptchaVerifyResult]; [None] is a key that
    the object does not have. *)
Record Observed : Type := {
  score : option number;
  action : option string;
  hostname : option string
}.

(** [type RecaptchaVerifyResult] *)
Inductive RecaptchaVerifyResult : Type :=
| VOk (seen : Observed)                            (* { ok: true, ... } *)
| VFail (reasons : list json) (seen : Observed).   (* { ok: false, reasons, ... } *)

Definition ok (r : RecaptchaVerifyResult) : bool :=
  match r with VOk _ => true | VFail _ _ => false end.

Definition nothing_seen : Observed :=
  {| score := None; action := None; hostname := None |}.

(** [s || ""] *)
Definition or_empty (v : option string) : string :=
  match or_str v (Some "") with Some s => s | None => "" end.

Definition RECAPTCHA_SECRET : string :=
  or_empty (env_RECAPTCHA_SECRET_KEY env).

(** [Number(process.env.RECAPTCHA_MIN_SCORE ?? "0.5")]; [Number("0.5")]
    is 0.5. *)
Definition RECAPTCHA_MIN_SCORE : number :=
  match env_RECAPTCHA_MIN_SCORE env with
  | Some s => js_Number lib s
  | None => Fin (1 # 2)
  end.

Definition RECAPTCHA_EXPECTED_ACTION : string :=
  trim (or_empty (env_RECAPTCHA_EXPECTED_ACTION env)).

Definition RECAPTCHA_ALLOWED_HOSTNAMES : list string :=
  filter str_truthy
    (map trim (split_comma (or_empty (env_RECAPTCHA_ALLOWED_HOSTNAMES env)))).

(** The delay [setTimeout] arms for a requested [ms]: Node truncates it
    to whole milliseconds, and takes 1 when it is NaN, below 1 or above
    2^31 - 1. *)
Definition setTimeout_delay (ms : number) : N :=
  match ms with
  | Fin q =>
      if Qle_bool 1 q && Qle_bool q 2147483647
      then Z.to_N (Qfloor q)
      else 1%N
  | _ => 1%N
  end.

(** Whether the timer armed for [delay] runs before the exchange on [w]
    is over. *)
Definition timer_first (w : Wire) (delay : N) : bool :=
  match arrives w with
  | None => true
  | Some t => (delay <? t)%N || ((delay =? t)%N && timer_wins_tie w)
  end.

Definition siteverify : string := "https://www.google.com/recaptcha/api/siteverify".

(** [await fetch(siteverify, { ..., signal: ac.signal })] then
    [await resp.json()], under the timer [setTimeout(() => ac.abort(),
    timeoutMs)]: an aborted fetch rejects with an [AbortError]. *)
Definition fetch_under_timer (body : list (string * string)) (timeoutMs : number)
  : IO FetchSettle :=
  let w := fetch world siteverify body in
  let delay := setTimeout_delay timeoutMs in
  emit (EvFetch siteverify body) ;;;
  if timer_first w delay
  then emit (EvAwaited delay) ;;; emit EvAbort ;;; ret (Rejects (Some "AbortError"))
  else emit (EvAwaited (match arrives w with Some t => t | None => delay end)) ;;;
       ret (settle w).

(** [s ? { s } : {}], and the [s] that passes [if (s)]. *)
Definition maybe (s : option string) : option string :=
  if opt_truthy s then s else None.

(** [const params = new URLSearchParams(); params.set("secret", ...);
    params.set("response", token); if (opts?.remoteip) params.set(...)] *)
Definition siteverify_body (token : string) (opts : VerifyOptions)
  : list (string * string) :=
  [("secret", RECAPTCHA_SECRET); ("response", token)]
  ++ match maybe (remoteip opts) with
     | Some ip => [("remoteip", ip)]
     | None => []
     end.

(** [typeof opts?.timeoutMs === "number" ? opts.timeoutMs : 10000] *)
Definition budget (opts : VerifyOptions) : number :=
  match timeoutMs opts with
  | Some n => n
  | None => Fin 10000
  end.

(** [export async function verifyRecaptchaV3(token, opts)] *)
Definition verifyRecaptchaV3 (token : option string) (opts : VerifyOptions)
  : IO RecaptchaVerifyResult :=
  if negb (str_truthy RECAPTCHA_SECRET) then
    ret (VFail [JStr "secret_missing"] nothing_seen)
  else
  match maybe token with
  | None => ret (VFail [JStr "token_missing"] nothing_seen)
  | Some token =>
    let params := siteverify_body token opts in
    let timeoutMs := budget opts in
    r <- fetch_under_timer params timeoutMs ;;
    match r with
    | Rejects name =>
        if match name with Some n => String.eqb n "AbortError" | None => false end
        then ret (VFail [JStr "verify_timeout"] nothing_seen)
        else ret (VFail [JStr "verify_request_failed"] nothing_seen)
    | Resolves parsed =>
        let json := Some parsed in
        let success := truthy (get json "success") in
        let score := as_number (get json "score") in
        let action := as_string (get json "action") in
        let hostname := as_string (get json "hostname") in
        let errorCodes := as_array (get json "error-codes") in
        let maybeScore := score in
        let maybeAction := maybe action in
        let maybeHostname := maybe hostname in
        if negb success then
          ret (VFail (match errorCodes with
                      | [] => [JStr "not_success"]
                      | _ :: _ => errorCodes
                      end)
                 {| score := maybeScore; action := maybeAction;
                    hostname := maybeHostname |})
        else
        let expected :=
          trim (or_empty
                  (or_str (or_str (Some RECAPTCHA_EXPECTED_ACTION)
                                  (expectedAction opts)) (Some ""))) in
        if str_truthy expected
           && negb (match action with
                    | Some a => String.eqb a expected
                    | None => false
                    end) then
          ret (VFail [JStr "unexpected_action"]
                 {| score := maybeScore; action := maybeAction;
                    hostname := maybeHostname |})
        else
        if match score with
           | Some s => lt s RECAPTCHA_MIN_SCORE
           | None => false
           end then
          ret (VFail [JStr "low_score"]
                 {| score := score; action := maybeAction;
                    hostname := maybeHostname |})
        else
        if negb (Nat.eqb (length RECAPTCHA_ALLOWED_HOSTNAMES) 0)
           && match maybe hostname with
              | Some h => negb (includes RECAPTCHA_ALLOWED_HOSTNAMES h)
              | None => false
              end then
          ret (VFail [JStr "hostname_not_allowed"]
                 {| score := maybeScore; action := maybeAction;
                    hostname := hostname |})
        else
          ret (VOk {| score := maybeScore; action := maybeAction;
                      hostname := maybeHostname |})
    end
  end.

(** ** mailer.ts *)

Definition newline : string := String "010"%char EmptyString.

Definition quote : string := String "034"%char EmptyString.

(** [function renderTemplate(file, vars)] *)
Definition renderTemplate (file : string) (vars : list (string * option json))
  : IO string :=
  match readFileSync world file with
  | None => throw (Rejected "fs.readFileSync")
  | Some tpl =>
      match Handlebars world tpl vars with
      | None => throw (Rejected "Handlebars.compile")
      | Some out => ret out
      end
  end.

(** [async function makeQrPng(data)] *)
Definition makeQrPng (data : option json) : IO string :=
  match QRCode_toBuffer world data with
  | None => throw (Rejected "QRCode.toBuffer")
  | Some png => ret png
  end.

(** [function resolveTemplatePath(file)] *)
Definition resolveTemplatePath (file : string) : IO string :=
  let candidates :=
    [ path_join lib [cwd world; "email_templates"; file];
      path_join lib [cwd world; "src"; "email_templates"; file];
      path_join lib [dirname world; "email_templates"; file] ] in
  match find (existsSync world) candidates with
  | Some p => ret p
  | None =>
      throw (Error ("Template not found. Searched: " ++ newline
                    ++ String.concat newline
                         (map (fun p => " - " ++ p) candidates))%string)
  end.

(** [o.k] where [o] may be undefined or null: the read throws. *)
Definition prop (o : option json) (k : string) : IO (option json) :=
  match o with
  | None =>
      throw (TypeError
               ("Cannot read properties of undefined (reading '" ++ k ++ "')")%string)
  | Some JNull =>
      throw (TypeError
               ("Cannot read properties of null (reading '" ++ k ++ "')")%string)
  | Some _ => ret (get o k)
  end.

Definition BASE_URL : option json := option_map JStr (env_BASE_URL env).

Definition str (s : string) : option json := Some (JStr s).

(** [Record<string, any>]: the variables of a template. *)
Definition Vars : Type := list (string * option json).

(** The body of [sendReservationEmail] is long; two of its blocks are
    named here, and the function below runs them in place. *)

(** The chain [if (statusCode === "CREATED_ACTIVE") { ... } else if ...
    else { throw new Error(`Unknown result.code: ${statusCode}`) }]: the
    two template paths and the variables of each. *)
Definition choose_templates (statusCode : option json) (commonVars : Vars)
    (existing : option json) : IO (string * string * Vars * Vars) :=
  if is_str statusCode "CREATED_ACTIVE" then
    templateNameHtml <- resolveTemplatePath "created_active.html" ;;
    templateNameTxt <- resolveTemplatePath "created_active.txt" ;;
    ret (templateNameHtml, templateNameTxt, commonVars, commonVars)
  else if is_str statusCode "CREATED_CANCELED" then
    templateNameHtml <- resolveTemplatePath "created_canceled.html" ;;
    templateNameTxt <- resolveTemplatePath "created_canceled.txt" ;;
    ret (templateNameHtml, templateNameTxt, commonVars, commonVars)
  else if is_str statusCode "CREATED_PENDING" then
    templateNameHtml <- resolveTemplatePath "created_pending.html" ;;
    templateNameTxt <- resolveTemplatePath "created_pending.txt" ;;
    let htmlVars :=
      commonVars ++
      [ ("existing_code", Some (coalesce (get existing "code") (JStr "")));
        ("existing_date", Some (coalesce (get existing "date") (JStr "")));
        ("existing_time", Some (coalesce (get existing "time") (JStr "")));
        ("existing_num_seats",
         if truthy existing
         then str (js_String lib (get existing "seats"))
         else str "") ] in
    ret (templateNameHtml, templateNameTxt, htmlVars, htmlVars)
  else
    throw (Error ("Unknown result.code: " ++ js_String lib statusCode)%string).

(** [let Emailsubject; switch (statusCode) { ... }] *)
Definition choose_subject (statusCode public_code : option json)
  : option string :=
  if is_str statusCode "CREATED_ACTIVE" then
    Some ("Επιβεβαίωση κράτησης #" ++ js_String lib public_code)%string
  else if is_str statusCode "CREATED_PENDING" then
    Some ("Κράτηση σε αναμονή #" ++ js_String lib public_code)%string
  else if is_str statusCode "CREATED_CANCELED" then
    Some ("Ακύρωση κράτησης #" ++ js_String lib public_code)%string
  else None.

(** [export async function sendReservationEmail(payload)] *)
Definition sendReservationEmail (payload : option json) : IO unit :=
  let result := payload in
  if negb (truthy result) then throw (Error "Missing payload") else
  let statusCode := get result "code" in
  let person := get result "person" in
  let performance := get result "performance" in
  let reservation := get result "reservation" in
  let existing := get result "existing reservation" in
  public_code <- prop reservation "code" ;;
  id <- prop reservation "id" ;;
  name <- prop person "name" ;;
  surname <- prop person "surname" ;;
  production_name <- prop performance "name" ;;
  theater_name <- prop performance "theater" ;;
  city <- prop performance "city" ;;
  address <- prop performance "address" ;;
  date <- prop reservation "date" ;;
  time <- prop reservation "time" ;;
  seats <- prop reservation "seats" ;;
  let num_seats := str (js_String lib seats) in
  let manage_url :=
    str (js_String lib BASE_URL ++ "/r/" ++ js_String lib id)%string in
  qrBuffer <- makeQrPng id ;;
  let commonVars :=
    [ ("public_code", public_code); ("name", name); ("address", address);
      ("surname", surname); ("production_name", production_name);
      ("theater_name", theater_name); ("city", city); ("date", date);
      ("time", time); ("num_seats", num_seats); ("manage_url", manage_url) ] in
  emit (EvLog "FINE") ;;;
  chosen <- choose_templates statusCode commonVars existing ;;
  let '(templateNameHtml, templateNameTxt, htmlVars, textVars) := chosen in
  let Emailsubject := choose_subject statusCode public_code in
  html <- renderTemplate templateNameHtml htmlVars ;;
  text <- renderTemplate templateNameTxt textVars ;;
  let message :=
    {| from := (quote ++ "Lappas Productions Tickets" ++ quote
                ++ " <tickets@lappasproductions.gr>")%string;
       to := get person "email";
       replyTo := "tickets@lappasproductions.gr";
       subject := Emailsubject;
       html := html;
       text := text;
       attachments :=
         if is_str statusCode "CREATED_ACTIVE"
         then [ {| filename := "qr.png"; content := qrBuffer; cid := "qr-code" |} ]
         else [] |} in
  emit (EvSendMail message) ;;;
  if sendMail world message then ret tt
  else throw (Rejected "transporter.sendMail").

(** ** server.ts *)

(** One string field of [UserSchema]: [z.string().trim()] followed by
    the checks of the field, all of them run on the trimmed string. *)
Definition zod_string (v : option json) (checks : string -> list Issue)
  : list Issue + string :=
  match v with
  | Some (JStr s) =>
      let t := trim s in
      match checks t with
      | [] => inr t
      | issues => inl issues
      end
  | _ => inl [invalid_type]
  end.

(** [.min(1).max(80)] *)
Definition min1_max80 (s : string) : list Issue :=
  (if (String.length s <? 1)%nat then [too_small] else [])
  ++ (if (80 <? String.length s)%nat then [too_big] else []).

(** [.email("Invalid email")] *)
Definition email_check (s : string) : list Issue :=
  if isEmail lib s then [] else [invalid_string].

Definition no_check (s : string) : list Issue := [].

Definition issues_of {A : Type} (field : string) (r : list Issue + A)
  : list (string * json) :=
  match r with
  | inl issues => [(field, JArr (map (fun i => JStr (zod_message lib i)) issues))]
  | inr _ => []
  end.

(** [UserSchema.safeParse({ name, surname, email, phone })]: the parsed
    data, or [parsed.error.flatten().fieldErrors]. *)
Definition UserSchema_safeParse (name surname email phone : option json)
  : list (string * json) + UserData.t :=
  let n := zod_string name min1_max80 in
  let s := zod_string surname min1_max80 in
  let e := zod_string email email_check in
  let p := zod_string phone no_check in
  match n, s, e, p with
  | inr n', inr s', inr e', inr p' =>
      inr {| UserData.name := n'; UserData.surname := s';
             UserData.email := e'; UserData.phone := p' |}
  | _, _, _, _ =>
      inl (issues_of "name" n ++ issues_of "surname" s
           ++ issues_of "email" e ++ issues_of "phone" p)
  end.

(** [res.status(500).json({ ok: false, status: "SERVER_ERROR", info })] *)
Definition server_error (info : string) : Response :=
  {| status := 500;
     payload := JObj [("ok", JBool false); ("status", JStr "SERVER_ERROR");
                      ("info", JStr info)] |}.

(** [rows[0]?.result ?? { ok: false, status: "SERVER_ERROR" }] *)
Definition first_result (rows : list json) : json :=
  coalesce (get (hd_error rows) "result")
    (JObj [("ok", JBool false); ("status", JStr "SERVER_ERROR")]).

(** [await pool.query(sql, args)] *)
Definition pool_query (sql : string) (args : list SqlArg) : IO (list json) :=
  emit (EvQuery sql args) ;;;
  match query world sql args with
  | QueryRows rows => ret rows
  | QueryThrows => throw (Rejected "pool.query")
  end.

(** The object a [RecaptchaVerifyResult] is. *)
Definition seen_json (o : Observed) : list (string * json) :=
  match score o with Some s => [("score", JNum s)] | None => [] end
  ++ match action o with Some a => [("action", JStr a)] | None => [] end
  ++ match hostname o with Some h => [("hostname", JStr h)] | None => [] end.

Definition verify_json (r : RecaptchaVerifyResult) : json :=
  match r with
  | VOk o => JObj (("ok", JBool true) :: seen_json o)
  | VFail reasons o =>
      JObj (("ok", JBool false) :: ("reasons", JArr reasons) :: seen_json o)
  end.

(** The options [POST /createReservation] passes to the verifier. *)
Definition verify_options (req : Request) : VerifyOptions :=
  let recaptchaActionFromBody := Body.recaptcha_action (body req) in
  let expectedAction :=
    or_str (env_RECAPTCHA_EXPECTED_ACTION env) recaptchaActionFromBody in
  {| remoteip := maybe (ip req);
     expectedAction := maybe expectedAction;
     timeoutMs := None |}.

(** [const payload = { user, performance, known_from, referer, reserved_by }] *)
Definition reservation_payload (data : UserData.t) (phoneParsed : PhoneNumber)
    (req : Request) : json :=
  JObj [("user",
         JObj [("name", JStr (UserData.name data));
               ("surname", JStr (UserData.surname data));
               ("phone", JStr (number_ phoneParsed));
               ("email", JStr (UserData.email data))]);
        ("performance",
         JObj [("date", JStr (js_String lib (Body.date (body req))));
               ("time", JStr (js_String lib (Body.time (body req))));
               ("production_id", JStr (js_String lib (Body.production (body req))));
               ("theater_id", JStr (js_String lib (Body.theater (body req))));
               ("num_seats", JStr (js_String lib (Body.num_seats (body req))))]);
        ("known_from", or_null (Body.known_from (body req)));
        ("referer", or_null (Body.referer (body req)));
        ("reserved_by", or_null (Body.reserved_by (body req)))].

Definition create_sql : string :=
  "select public.create_reservation_from_json($1::jsonb) as result".

(** The handler of [POST /createReservation] is long; its two blocks
    that the properties speak of are named here, and the handler below
    runs them in place. *)

(** [res.status(200).json({ ok: false, code: "RECAPTCHA_FAILED", info,
    meta: verify })] *)
Definition recaptcha_failed (verify : RecaptchaVerifyResult) : Response :=
  {| status := 200;
     payload :=
       JObj [("ok", JBool false);
             ("code", JStr "RECAPTCHA_FAILED");
             ("info", JStr "Η επαλήθευση ασφαλείας δεν ολοκληρώθηκε.");
             ("meta", verify_json verify)] |}.

(** The reCAPTCHA block: [if (recaptchaToken) { ... }].  [Some response]
    is the [return] inside it. *)
Definition recaptcha_step (req : Request) : IO (option Response) :=
  let recaptchaToken := Body.recaptcha (body req) in
  if opt_truthy recaptchaToken then
    verify <- verifyRecaptchaV3 recaptchaToken (verify_options req) ;;
    if negb (ok verify) then ret (Some (recaptcha_failed verify))
    else ret None
  else ret None.

(** The block that follows the query: [const code = result.code] and
    the chain of [if (code === ...) return res.status(...).json(result)]. *)
Definition respond_to_create (result : json) : IO Response :=
  let code := get (Some result) "code" in
  if is_str code "CREATED_ACTIVE" || is_str code "CREATED_PENDING" then
    sendReservationEmail (Some result) ;;;
    ret {| status := 200; payload := result |}
  else if is_str code "DUPLICATE_SAME_DATETIME" then
    ret {| status := 409; payload := result |}
  else if is_str code "PERFORMANCE_THEATER_NOT_FOUND"
          || is_str code "PERFORMANCE_DATETIME_NOT_FOUND" then
    ret {| status := 404; payload := result |}
  else if is_str code "MISSING_FIELDS"
          || is_str code "INVALID_NUM_SEATS"
          || is_str code "INVALID_DATE_TIME_FORMAT"
          || is_str code "INVALID_PHONE" then
    ret {| status := 400; payload := result |}
  else
    ret {| status := 400; payload := result |}.

Definition invalid_phone : Response :=
  {| status := 400;
     payload := JObj [("ok", JBool false);
                      ("status", JStr "INVALID_PHONE");
                      ("info", JStr "Μη έγκυρο τηλέφωνο")] |}.

(** [app.post("/createReservation", async (req, res) => { try { ... }
    catch (err) { ... } })] *)
Definition createReservation (req : Request) : IO Response :=
  try_catch
    (match UserSchema_safeParse (Body.name (body req)) (Body.surname (body req))
             (Body.email (body req)) (Body.phone (body req)) with
     | inl fieldErrors =>
         ret {| status := 400;
                payload := JObj [("ok", JBool false);
                                 ("status", JStr "VALIDATION_ERROR");
                                 ("errors", JObj fieldErrors)] |}
     | inr data =>
     match parsePhoneNumberFromString lib (UserData.phone data) "GR" with
     | None => ret invalid_phone
     | Some phoneParsed =>
     if negb (isValid phoneParsed) then ret invalid_phone
     else
     blocked <- recaptcha_step req ;;
     match blocked with
     | Some response => ret response
     | None =>
     let payload := reservation_payload data phoneParsed req in
     rows <- pool_query create_sql [SqlText (JSON_stringify lib payload)] ;;
     let result := first_result rows in
     respond_to_create result
     end
     end
     end)
    (fun err => ret (server_error "Αποτυχία δημιουργίας κράτησης")).

Definition confirm_sql : string :=
  "select public.confirm_reservation($1::text, $2::boolean) as result".

(** The block that follows the query in [GET /c/:id]. *)
Definition respond_to_confirm (result : json) : IO Response :=
  if is_str (get (Some result) "code") "CREATED_ACTIVE" then
    sendReservationEmail (Some result) ;;;
    ret {| status := 200; payload := result |}
  else
    ret {| status := 200; payload := result |}.

(** [app.get("/c/:id", ...)] *)
Definition confirmReservation (req : Request) : IO Response :=
  try_catch
    (let reservation_id := id req in
     rows <- pool_query confirm_sql [SqlText reservation_id; SqlBool false] ;;
     let result := first_result rows in
     respond_to_confirm result)
    (fun _ => ret (server_error "Αποτυχία επιβεβαίωσης κράτησης")).

Definition cancel_sql : string :=
  "select public.cancel_reservation($1::text, $2::boolean) as result".

(** The block that follows the query in [GET /d/:id]. *)
Definition respond_to_cancel (result : json) : IO Response :=
  if is_str (get (Some result) "code") "CREATED_CANCELED" then
    sendReservationEmail (Some result) ;;;
    ret {| status := 200; payload := result |}
  else if is_str (get (Some result) "code") "NO_RESERVATION" then
    ret {| status := 404; payload := result |}
  else if is_str (get (Some result) "code") "NO_PERMISSION" then
    ret {| status := 403; payload := result |}
  else
    ret {| status := 400; payload := result |}.

(** [app.get("/d/:id", ...)] *)
Definition cancelReservation (req : Request) : IO Response :=
  try_catch
    (let reservation_id := id req in
     rows <- pool_query cancel_sql [SqlText reservation_id; SqlBool false] ;;
     let result := first_result rows in
     respond_to_cancel result)
    (fun _ => ret (server_error "Αποτυχία ακύρωσης κράτησης")).

(** *** The read routes *)

Definition upcoming_sql : string :=
  "SELECT public.get_upcoming_productions() as result".

(** [app.get("/getUpcomingProductions", ...)] *)
Definition getUpcomingProductions (req : Request) : IO Response :=
  try_catch
    (rows <- pool_query upcoming_sql [] ;;
     let result := first_result rows in
     ret {| status := 200; payload := result |})
    (fun _ => ret (server_error "Αποτυχία φόρτωσης λίστας")).

Definition availability_sql : string :=
  "SELECT public.get_production_availability($1::bigint) as result".

(** [app.post("/getProductionAvailability/:id", ...)] *)
Definition getProductionAvailability (req : Request) : IO Response :=
  try_catch
    (rows <- pool_query availability_sql [SqlText (id req)] ;;
     let result := first_result rows in
     ret {| status := 200; payload := result |})
    (fun _ => ret (server_error "Αποτυχία φόρτωσης διαθεσιμότητας")).

Definition reservation_sql : string :=
  "SELECT public.getReservation($1::uuid) as result".

(** [app.post("/getReservation/:id", ...)] *)
Definition getReservation (req : Request) : IO Response :=
  try_catch
    (rows <- pool_query reservation_sql [SqlText (id req)] ;;
     let result := first_result rows in
     ret {| status := 200; payload := result |})
    (fun _ => ret (server_error "Αποτυχία φόρτωσης κράτησης")).

(** *** The earlier recaptcha.ts

    The copy of the helper kept beside the session types: it arms no
    timer, answers [verify_request_failed] to whatever the exchange
    throws, and reads the caller's expected action before the
    system-wide one.  Its options have no [timeoutMs]; the key is
    ignored here.  Without a timer the call may never settle: the answer
    is [None] then. *)

(** [await fetch(siteverify, { method, headers, body })] then
    [await resp.json()]. *)
Definition fetch_unbounded (body : list (string * string))
  : list Event * option FetchSettle :=
  let w := fetch world siteverify body in
  match arrives w with
  | Some t => ([EvFetch siteverify body; EvAwaited t], Some (settle w))
  | None => ([EvFetch siteverify body], None)
  end.

(** [export async function verifyRecaptchaV3(token, opts)], earlier
    version. *)
Definition verifyRecaptchaV3_earlier (token : option string)
    (opts : VerifyOptions) : list Event * option RecaptchaVerifyResult :=
  if negb (str_truthy RECAPTCHA_SECRET) then
    ([], Some (VFail [JStr "secret_missing"] nothing_seen))
  else
  match maybe token with
  | None => ([], Some (VFail [JStr "token_missing"] nothing_seen))
  | Some token =>
    let params := siteverify_body token opts in
    let (t, r) := fetch_unbounded params in
    (t,
     match r with
     | None => None
     | Some (Rejects _) =>
         Some (VFail [JStr "verify_request_failed"] nothing_seen)
     | Some (Resolves parsed) =>
        let json := Some parsed in
        let success := truthy (get json "success") in
        let score := as_number (get json "score") in
        let action := as_string (get json "action") in
        let hostname := as_string (get json "hostname") in
        let errorCodes := as_array (get json "error-codes") in
        let maybeScore := score in
        let maybeAction := maybe action in
        let maybeHostname := maybe hostname in
        if negb success then
          Some (VFail (match errorCodes with
                       | [] => [JStr "not_success"]
                       | _ :: _ => errorCodes
                       end)
                  {| score := maybeScore; action := maybeAction;
                     hostname := maybeHostname |})
        else
        let expected :=
          trim (or_empty
                  (or_str (or_str (expectedAction opts)
                                  (Some RECAPTCHA_EXPECTED_ACTION))
                          (Some ""))) in
        if str_truthy expected
           && negb (match action with
                    | Some a => String.eqb a expected
                    | None => false
                    end) then
          Some (VFail [JStr "unexpected_action"]
                  {| score := maybeScore; action := maybeAction;
                     hostname := maybeHostname |})
        else
        if match score with
           | Some s => lt s RECAPTCHA_MIN_SCORE
           | None => false
           end then
          Some (VFail [JStr "low_score"]
                  {| score := score; action := maybeAction;
                     hostname := maybeHostname |})
        else
        if negb (Nat.eqb (length RECAPTCHA_ALLOWED_HOSTNAMES) 0)
           && match maybe hostname with
              | Some h => negb (includes RECAPTCHA_ALLOWED_HOSTNAMES h)
              | None => false
              end then
          Some (VFail [JStr "hostname_not_allowed"]
                  {| score := maybeScore; action := maybeAction;
                     hostname := hostname |})
        else
          Some (VOk {| score := maybeScore; action := maybeAction;
                       hostname := maybeHostname |})
     end)
  end.

End Program.

(** ** server.ts: the login route *)

(** [req.body] of [POST /login]: [username] has the type of the
    parameter of [parsePhoneNumberFromString] it is passed to. *)
Record LoginBody : Type := {
  username : string;
  password : option json
}.

(** What the route takes from bcryptjs and from the phone number class:
    [bcrypt.hashSync(s, salt)], which throws ([None]) on what it cannot
    hash, and the JSON form of a parsed phone number. *)
Record Crypto : Type := {
  bcrypt_hashSync : option json -> string -> option string;
  PhoneNumber_toJSON : PhoneNumber -> json
}.

Section Login.

Variable lib : Lib.
Variable crypto : Crypto.

Definition salt : string := "$2a$10$CwTycUXWue0Thq9StjUM0u".

(** [app.post("/login", ...)]: the handler returns before the query
    that its source still holds. *)
Definition login (body : LoginBody) : IO Response :=
  try_catch
    (match parsePhoneNumberFromString lib (username body) "GR" with
     | None =>
         ret {| status := 400;
                payload := JObj [("ok", JBool false);
                                 ("status", JStr "INVALID_PHONE");
                                 ("info", JStr "Μη έγκυρη μορφή τηλεφώνου")] |}
     | Some phoneParsed =>
     if negb (isValid phoneParsed) then
         ret {| status := 400;
                payload := JObj [("ok", JBool false);
                                 ("status", JStr "INVALID_PHONE");
                                 ("info", JStr "Μη έγκυρη μορφή τηλεφώνου")] |}
     else
     match bcrypt_hashSync crypto (password body) salt with
     | None => throw (Rejected "bcrypt.hashSync")
     | Some password =>
         ret {| status := 200;
                payload := JObj [("password", JStr password);
                                 ("phoneParsed",
                                  PhoneNumber_toJSON crypto phoneParsed)] |}
     end
     end)
    (fun _ => ret (server_error "Αποτυχία φόρτωσης κράτησης")).

End Login.

(** ** The vocabulary of the specification

    The definitions of this section follow the words of the
    specification; the theorems compare the program with them. *)

Section Specification.

Variable lib : Lib.
Variable world : World.
Variable env : Env.

(** *** Reading a trace *)

(** The calls to the transactional backend. *)
Definition queries (t : list Event) : list (string * list SqlArg) :=
  flat_map (fun ev => match ev with
                      | EvQuery sql args => [(sql, args)]
                      | _ => []
                      end) t.

(** The notification dispatches. *)
Definition dispatches (t : list Event) : list MailMessage :=
  flat_map (fun ev => match ev with
                      | EvSendMail m => [m]
                      | _ => []
                      end) t.

(** The round trips to the scoring service. *)
Definition round_trips (t : list Event) : list (list (string * string)) :=
  flat_map (fun ev => match ev with
                      | EvFetch _ body => [body]
                      | _ => []
                      end) t.

(** The time spent waiting, in milliseconds. *)
Definition waited (t : list Event) : N :=
  fold_right (fun ev acc => match ev with
                            | EvAwaited ms => (ms + acc)%N
                            | _ => acc
                            end) 0%N t.

(** Whether the in-flight call was aborted. *)
Definition aborted (t : list Event) : bool :=
  existsb (fun ev => match ev with EvAbort => true | _ => false end) t.

(** *** The checks of the risk verifier *)

(** The reason codes of a verification: none when it accepts. *)
Definition reasons_of (v : RecaptchaVerifyResult) : option (list json) :=
  match v with
  | VOk _ => None
  | VFail reasons _ => Some reasons
  end.

Definition seen_of (v : RecaptchaVerifyResult) : Observed :=
  match v with
  | VOk seen => seen
  | VFail _ seen => seen
  end.

(** What the upstream supplied of score, action and hostname. *)
Definition carried (r : FetchSettle) : Observed :=
  match r with
  | Resolves parsed =>
      {| score := as_number (get (Some parsed) "score");
         action := maybe (as_string (get (Some parsed) "action"));
         hostname := maybe (as_string (get (Some parsed) "hostname")) |}
  | Rejects _ => nothing_seen
  end.

(** Transport: the time budget expired, or the call failed otherwise. *)
Definition check_transport (r : FetchSettle) : option (list json) :=
  match r with
  | Resolves _ => None
  | Rejects (Some name) =>
      if String.eqb name "AbortError" then Some [JStr "verify_timeout"]
      else Some [JStr "verify_request_failed"]
  | Rejects None => Some [JStr "verify_request_failed"]
  end.

(** The upstream explicitly reports failure: its reason codes, or
    [not_success] if none were supplied. *)
Definition check_upstream (parsed : json) : option (list json) :=
  if truthy (get (Some parsed) "success") then None
  else match as_array (get (Some parsed) "error-codes") with
       | [] => Some [JStr "not_success"]
       | codes => Some codes
       end.

(** The expected action: the system-wide one when it is configured, the
    caller-supplied one otherwise. *)
Definition expected_action (opts : VerifyOptions) : string :=
  trim (if str_truthy (RECAPTCHA_EXPECTED_ACTION env)
        then RECAPTCHA_EXPECTED_ACTION env
        else match expectedAction opts with
             | Some caller => caller
             | None => ""
             end).

(** An action is expected and the upstream-reported one differs. *)
Definition check_action (opts : VerifyOptions) (parsed : json)
  : option (list json) :=
  if String.eqb (expected_action opts) "" then None
  else match get (Some parsed) "action" with
       | Some (JStr a) =>
           if String.eqb a (expected_action opts) then None
           else Some [JStr "unexpected_action"]
       | _ => Some [JStr "unexpected_action"]
       end.

(** The upstream reports a numeric score below the configured minimum. *)
Definition check_score (parsed : json) : option (list json) :=
  match get (Some parsed) "score" with
  | Some (JNum s) =>
      if lt s (RECAPTCHA_MIN_SCORE lib env) then Some [JStr "low_score"]
      else None
  | _ => None
  end.

(** An allow-list is configured, non-empty, and the upstream-reported
    hostname is present but not in the list. *)
Definition check_hostname (parsed : json) : option (list json) :=
  match RECAPTCHA_ALLOWED_HOSTNAMES env, get (Some parsed) "hostname" with
  | _ :: _, Some (JStr h) =>
      if String.eqb h "" then None
      else if includes (RECAPTCHA_ALLOWED_HOSTNAMES env) h then None
      else Some [JStr "hostname_not_allowed"]
  | _, _ => None
  end.

(** The checks in their fixed order; the four that follow the transport
    read the response, so they exist only when there is one. *)
Definition checks_in_order (opts : VerifyOptions) (r : FetchSettle)
  : list (option (list json)) :=
  check_transport r ::
  match r with
  | Resolves parsed =>
      [ check_upstream parsed; check_action opts parsed;
        check_score parsed; check_hostname parsed ]
  | Rejects _ => []
  end.

(** Short-circuit: the reasons of the first check that fails. *)
Fixpoint first_failure (checks : list (option (list json)))
  : option (list json) :=
  match checks with
  | [] => None
  | Some reasons :: _ => Some reasons
  | None :: rest => first_failure rest
  end.

(** *** The orchestrator *)

(** Identity-field validation and phone normalization succeeded. *)
Definition identity_valid (req : Request) (data : UserData.t)
    (phoneParsed : PhoneNumber) : Prop :=
  UserSchema_safeParse lib (Body.name (body req)) (Body.surname (body req))
    (Body.email (body req)) (Body.phone (body req)) = inr data
  /\ parsePhoneNumberFromString lib (UserData.phone data) "GR" = Some phoneParsed
  /\ isValid phoneParsed = true.

(** A risk token was supplied: the request has one and it is not empty. *)
Definition token_supplied (req : Request) : bool :=
  opt_truthy (Body.recaptcha (body req)).

(** The verification the orchestrator asks for. *)
Definition verification (req : Request) : IO RecaptchaVerifyResult :=
  verifyRecaptchaV3 lib world env (Body.recaptcha (body req))
    (verify_options env req).

(** When a risk token was supplied, risk verification returned ok. *)
Definition risk_passed (req : Request) : Prop :=
  token_supplied req = true ->
  exists v, outcome (verification req) = inr v /\ ok v = true.

(** The canonical request of the orchestrator reaches the backend, which
    answers [rows]. *)
Definition delegated (req : Request) (rows : list json) : Prop :=
  exists data phoneParsed,
    identity_valid req data phoneParsed
    /\ risk_passed req
    /\ query world create_sql
         [SqlText (JSON_stringify lib
                     (reservation_payload lib data phoneParsed req))]
       = QueryRows rows.

(** A client-facing rejection: a response that says [ok: false] under a
    status that is not a server error. *)
Definition client_rejection (r : Response) : Prop :=
  get (Some (payload r)) "ok" = Some (JBool false)
  /\ (status r = 400 \/ status r = 200).

(** The outcome codes of the specification. *)
Definition outcome_codes : list string :=
  [ "CREATED_ACTIVE"; "CREATED_PENDING"; "DUPLICATE_SAME_DATETIME";
    "PERFORMANCE_THEATER_NOT_FOUND"; "PERFORMANCE_DATETIME_NOT_FOUND";
    "MISSING_FIELDS"; "INVALID_NUM_SEATS"; "INVALID_DATE_TIME_FORMAT";
    "INVALID_PHONE"; "NO_RESERVATION"; "NO_PERMISSION"; "CREATED_CANCELED" ].

Definition recognized (code : option json) : bool :=
  existsb (is_str code) outcome_codes.

(** *** Notifications *)

Inductive Kind : Type :=
| ActiveConfirmation
| PendingWithConflict
| Cancellation.

(** The kind that matches an outcome code, for the three eligible ones. *)
Definition kind_of_code (code : option json) : option Kind :=
  if is_str code "CREATED_ACTIVE" then Some ActiveConfirmation
  else if is_str code "CREATED_PENDING" then Some PendingWithConflict
  else if is_str code "CREATED_CANCELED" then Some Cancellation
  else None.

(** The outcome code a kind is for. *)
Definition code_of (k : Kind) : string :=
  match k with
  | ActiveConfirmation => "CREATED_ACTIVE"
  | PendingWithConflict => "CREATED_PENDING"
  | Cancellation => "CREATED_CANCELED"
  end.

Definition template_of (k : Kind) : string :=
  match k with
  | ActiveConfirmation => "created_active"
  | PendingWithConflict => "created_pending"
  | Cancellation => "created_canceled"
  end.

Definition subject_of (k : Kind) : string :=
  match k with
  | ActiveConfirmation => "Επιβεβαίωση κράτησης #"
  | PendingWithConflict => "Κράτηση σε αναμονή #"
  | Cancellation => "Ακύρωση κράτησης #"
  end.

(** [out] is a rendering of the template [file]. *)
Definition rendering_of (file : string) (out : string) : Prop :=
  exists path tpl vars,
    outcome (resolveTemplatePath lib world file) = inr path
    /\ readFileSync world path = Some tpl
    /\ Handlebars world tpl vars = Some out.

(** A message of kind [k]: the two templates of the kind, its subject,
    and the scannable code for an active confirmation only. *)
Definition of_kind (k : Kind) (m : MailMessage) : Prop :=
  rendering_of (template_of k ++ ".html")%string (html m)
  /\ rendering_of (template_of k ++ ".txt")%string (text m)
  /\ (exists public_code, subject m = Some (subject_of k ++ public_code)%string)
  /\ (attachments m <> [] <-> k = ActiveConfirmation).


(** *** Templates *)

(** The three places a template is looked for, in this order. *)
Definition template_candidates (file : string) : list string :=
  [ path_join lib [cwd world; "email_templates"; file];
    path_join lib [cwd world; "src"; "email_templates"; file];
    path_join lib [dirname world; "email_templates"; file] ].

(** *** The configuration *)

(** A string that does not start with white space. *)
Definition starts_clean (s : string) : Prop :=
  match s with
  | EmptyString => True
  | String c _ => is_space c = false
  end.

(** A string with no comma. *)
Definition comma_free (s : string) : bool :=
  forallb (fun c => negb (Ascii.eqb c ","%char)) (list_ascii_of_string s).

(** A hostname as one writes it in a list: not empty, no comma, no
    white space at either end. *)
Definition clean (h : string) : bool :=
  match list_ascii_of_string h, rev (list_ascii_of_string h) with
  | first :: _, last :: _ =>
      negb (is_space first) && negb (is_space last) && comma_free h
  | _, _ => false
  end.

End Specification.

(** ** A sample deployment

    One concrete library, environment, world and request, on which the
    definitions above run; the examples below evaluate the program
    there. *)

Module Sample.

Definition to_String (v : option json) : string :=
  match v with
  | None => "undefined"
  | Some JNull => "null"
  | Some (JBool true) => "true"
  | Some (JBool false) => "false"
  | Some (JNum (Fin q)) => NilZero.string_of_int (Z.to_int (Qfloor q))
  | Some (JNum NaN) => "NaN"
  | Some (JNum PosInf) => "Infinity"
  | Some (JNum NegInf) => "-Infinity"
  | Some (JStr s) => s
  | Some (JArr _) => "[array]"
  | Some (JObj _) => "[object Object]"
  end.

Definition parsePhone (s : string) (region : string) : option PhoneNumber :=
  if String.eqb s "" then None
  else if (String.length s =? 10)%nat && prefix "69" s
       then Some {| isValid := true; number_ := ("+30" ++ s)%string |}
       else Some {| isValid := false; number_ := s |}.

Definition message (i : Issue) : string :=
  match i with
  | invalid_type => "Required"
  | too_small => "String must contain at least 1 character(s)"
  | too_big => "String must contain at most 80 character(s)"
  | invalid_string => "Invalid email"
  end.

Definition lib : Lib :=
  {| js_Number := fun _ => NaN;
     js_String := to_String;
     JSON_stringify := fun _ => "{...}";
     isEmail := fun s => match index 0 "@" s with
                         | Some (S _) => true
                         | _ => false
                         end;
     parsePhoneNumberFromString := parsePhone;
     path_join := String.concat "/";
     zod_message := message |}.

Definition env : Env :=
  {| env_RECAPTCHA_SECRET_KEY := Some "6Lc-secret";
     env_RECAPTCHA_MIN_SCORE := None;
     env_RECAPTCHA_EXPECTED_ACTION := Some "reserve";
     env_RECAPTCHA_ALLOWED_HOSTNAMES :=
       Some "reservations.lappasproductions.gr, lappas-tickets.netlify.app";
     env_BASE_URL := Some "https://reservations.lappasproductions.gr" |}.

(** What the scoring service answers. *)
Definition upstream (fields : list (string * json)) (after : N) : Wire :=
  {| arrives := Some after; settle := Resolves (JObj fields);
     timer_wins_tie := true |}.

Definition human : Wire :=
  upstream [("success", JBool true); ("score", JNum (Fin (9 # 10)));
            ("action", JStr "reserve");
            ("hostname", JStr "reservations.lappasproductions.gr")] 120.

Definition robot : Wire :=
  upstream [("success", JBool true); ("score", JNum (Fin (2 # 10)));
            ("action", JStr "reserve")] 120.

(** A wrong action, a low score and a foreign hostname at once. *)
Definition impostor : Wire :=
  upstream [("success", JBool true); ("score", JNum (Fin (1 # 10)));
            ("action", JStr "login"); ("hostname", JStr "evil.example")] 80.

(** A passing response that carries no score. *)
Definition scoreless : Wire :=
  upstream [("success", JBool true); ("action", JStr "reserve");
            ("hostname", JStr "lappas-tickets.netlify.app")] 95.

Definition silent : Wire :=
  {| arrives := None; settle := Rejects None; timer_wins_tie := false |}.

Definition unreachable : Wire :=
  {| arrives := Some 35%N; settle := Rejects (Some "TypeError");
     timer_wins_tie := false |}.

(** What the database function returns for an outcome code. *)
Definition result (code : string) : json :=
  JObj [("ok", JBool true); ("code", JStr code); ("info", JStr "done");
        ("person",
         JObj [("name", JStr "A"); ("email", JStr "a@b.com");
               ("phone", JStr "+306912345678"); ("surname", JStr "B")]);
        ("performance",
         JObj [("city", JStr "Patra"); ("name", JStr "Play");
               ("address", JStr "Agiou Nikolaou 1"); ("theater", JStr "Apollon")]);
        ("reservation",
         JObj [("code", JStr "AB12CD"); ("date", JStr "01/12/25");
               ("time", JStr "21:00"); ("seats", JNum (Fin 2));
               ("id", JStr "7f0c1d2e")])].

(** A rejection of the database function: a code and nothing else. *)
Definition refusal (code : string) : json :=
  JObj [("ok", JBool false); ("code", JStr code)].

Definition rows (r : json) : QueryOutcome := QueryRows [JObj [("result", r)]].

Definition world (wire : Wire) (db : QueryOutcome) (smtp : bool) : World :=
  {| fetch := fun _ _ => wire;
     query := fun _ _ => db;
     QRCode_toBuffer := fun d => match d with
                                 | Some (JStr s) =>
                                     if String.eqb s "" then None
                                     else Some ("png:" ++ s)%string
                                 | _ => None
                                 end;
     existsSync := prefix "/app/email_templates/";
     readFileSync := fun p => Some ("template " ++ p)%string;
     Handlebars := fun tpl _ => Some ("rendered " ++ tpl)%string;
     sendMail := fun _ => smtp;
     cwd := "/app";
     dirname := "/app/dist" |}.

Definition form (phone : string) (token : option string) : Body.t :=
  {| Body.name := Some (JStr "A");
     Body.surname := Some (JStr "B");
     Body.email := Some (JStr "a@b.com");
     Body.phone := Some (JStr phone);
     Body.recaptcha := token;
     Body.recaptcha_action := Some "reserve";
     Body.date := Some (JStr "01/12/25");
     Body.time := Some (JStr "21:00");
     Body.production := Some (JNum (Fin 3));
     Body.theater := Some (JNum (Fin 1));
     Body.num_seats := Some (JNum (Fin 2));
     Body.known_from := None;
     Body.referer := None;
     Body.reserved_by := None |}.

Definition request (phone : string) (token : option string) : Request :=
  {| body := form phone token; ip := Some "203.0.113.7"; id := "7f0c1d2e" |}.

Definition no_options : VerifyOptions :=
  {| remoteip := None; expectedAction := None; timeoutMs := None |}.

(** The deployment on a good day, answering [code] to every query. *)
Definition answering (code : string) : World :=
  world human (rows (result code)) true.

(** The same with the SMTP server down. *)
Definition smtp_down (code : string) : World :=
  world human (rows (result code)) false.

(** The backend refuses with [code]. *)
Definition refusing (code : string) : World :=
  world human (rows (refusal code)) true.

(** The scoring service answers [wire]. *)
Definition scored (wire : Wire) : World :=
  world wire (rows (result "CREATED_ACTIVE")) true.

Definition visitor : Request := request "6912345678" (Some "03AGdBq2").



(** The backend answers no row; the backend throws. *)
Definition no_row : World := world human (QueryRows []) true.

Definition backend_down : World := world human QueryThrows true.

Definition anonymous : Request := request "6912345678" None.

Definition crypto : Crypto :=
  {| bcrypt_hashSync := fun v salt => match v with
                                      | Some (JStr s) => Some (salt ++ s)%string
                                      | _ => None
                                      end;
     PhoneNumber_toJSON := fun p => JObj [("number", JStr (number_ p))] |}.

End Sample.

(** * Properties *)

(** ** The [IO] monad *)

Section Monad.

Context {A B : Type}.

Lemma outcome_bind (c : IO A) (k : A -> IO B) :
  outcome (bind c k)
  = match outcome c with
    | inl e => inl e
    | inr a => outcome (k a)
    end.
Proof.
  destruct c as [t [e | a]]; cbn; [reflexivity |].
  destruct (k a); reflexivity.
Qed.

Lemma trace_bind (c : IO A) (k : A -> IO B) :
  trace (bind c k)
  = trace c ++ match outcome c with
               | inl _ => []
               | inr a => trace (k a)
               end.
Proof.
  destruct c as [t [e | a]]; cbn; [now rewrite app_nil_r |].
  destruct (k a); reflexivity.
Qed.

Lemma bind_ret (a : A) (k : A -> IO B) : bind (ret a) k = k a.
Proof.
  unfold bind, ret. now destruct (k a).
Qed.

Lemma bind_throw (e : Exn) (k : A -> IO B) : bind (throw e) k = throw e.
Proof.
  reflexivity.
Qed.

Lemma bind_emit (ev : Event) (k : unit -> IO B) :
  bind (emit ev) k = (ev :: trace (k tt), outcome (k tt)).
Proof.
  unfold bind, emit. now destruct (k tt).
Qed.

Lemma trace_then_ret (c : IO A) (b : B) :
  trace (bind c (fun _ => ret b)) = trace c.
Proof.
  rewrite trace_bind. destruct (outcome c); apply app_nil_r.
Qed.

Lemma outcome_try_catch (c : IO A) (h : Exn -> IO A) :
  outcome (try_catch c h)
  = match outcome c with
    | inl e => outcome (h e)
    | inr a => inr a
    end.
Proof.
  destruct c as [t [e | a]]; cbn; [| reflexivity].
  destruct (h e); reflexivity.
Qed.

Lemma trace_try_catch (c : IO A) (h : Exn -> IO A) :
  trace (try_catch c h)
  = trace c ++ match outcome c with
               | inl e => trace (h e)
               | inr _ => []
               end.
Proof.
  destruct c as [t [e | a]]; cbn; [| now rewrite app_nil_r].
  destruct (h e); reflexivity.
Qed.

End Monad.

(** ** The risk verifier *)

Section Verifier.

Variable lib : Lib.
Variable world : World.
Variable env : Env.

(** The call to the scoring service always settles: with the response,
    with the failure of the exchange, or with the abort of the timer. *)
Lemma fetch_under_timer_settles body ms :
  outcome (fetch_under_timer world body ms)
  = inr (if timer_first (fetch world siteverify body) (setTimeout_delay ms)
         then Rejects (Some "AbortError")
         else settle (fetch world siteverify body)).
Proof.
  unfold fetch_under_timer.
  destruct (timer_first _ _); reflexivity.
Qed.

Lemma fetch_under_timer_trace body ms :
  trace (fetch_under_timer world body ms)
  = EvFetch siteverify body ::
    if timer_first (fetch world siteverify body) (setTimeout_delay ms)
    then [EvAwaited (setTimeout_delay ms); EvAbort]
    else [EvAwaited (match arrives (fetch world siteverify body) with
                     | Some t => t
                     | None => setTimeout_delay ms
                     end)].
Proof.
  unfold fetch_under_timer.
  destruct (timer_first _ _); reflexivity.
Qed.

Lemma str_truthy_false s : str_truthy s = false -> s = "".
Proof.
  unfold str_truthy. intros H.
  apply String.eqb_eq. now destruct (String.eqb s "").
Qed.

(** [(RECAPTCHA_EXPECTED_ACTION || opts?.expectedAction || "").trim()] is
    the expected action of the specification. *)
Lemma expected_action_unfold opts :
  trim (or_empty
          (or_str (or_str (Some (RECAPTCHA_EXPECTED_ACTION env))
                          (expectedAction opts)) (Some "")))
  = expected_action env opts.
Proof.
  unfold expected_action, or_empty, or_str.
  cbn [opt_truthy].
  destruct (str_truthy (RECAPTCHA_EXPECTED_ACTION env)) eqn:Henv.
  - cbn [opt_truthy]. rewrite Henv. cbn [opt_truthy]. now rewrite Henv.
  - destruct (expectedAction opts) as [caller |]; cbn [opt_truthy].
    + destruct (str_truthy caller) eqn:Hc; cbn [opt_truthy]; rewrite ?Hc.
      * reflexivity.
      * now rewrite (str_truthy_false _ Hc).
    + reflexivity.
Qed.

(** What the verifier answers once the exchange has settled with [r]:
    the reasons of the first failing check, in the order of the
    specification, and what the upstream supplied. *)
Lemma verify_after_transport token tok opts r :
  str_truthy (RECAPTCHA_SECRET env) = true ->
  maybe token = Some tok ->
  outcome (fetch_under_timer world (siteverify_body env tok opts) (budget opts))
  = inr r ->
  exists v,
    outcome (verifyRecaptchaV3 lib world env token opts) = inr v
    /\ reasons_of v = first_failure (checks_in_order lib env opts r)
    /\ seen_of v = carried r.
Proof.
  intros Hsecret Htok Hr.
  unfold verifyRecaptchaV3.
  rewrite Hsecret, Htok. cbn [negb].
  rewrite outcome_bind, Hr.
  destruct r as [parsed | name].
  - cbn [checks_in_order check_transport first_failure carried].
    rewrite expected_action_unfold.
    unfold check_upstream, check_action, check_score, check_hostname.
    generalize (expected_action env opts) as expected. intros expected.
    unfold str_truthy, maybe, opt_truthy, str_truthy, as_string, as_number.
    destruct (truthy (get (Some parsed) "success")); cbn [negb].
    2: { destruct (as_array _); eexists; repeat split; reflexivity. }
    destruct (String.eqb expected ""); cbn [negb andb];
      destruct (get (Some parsed) "action") as [[| | | a | |] |];
      try destruct (String.eqb a expected); cbn [negb andb];
      try (eexists; repeat split; reflexivity);
      destruct (get (Some parsed) "score") as [[| | s | | |] |];
      try destruct (lt s (RECAPTCHA_MIN_SCORE lib env));
      try (eexists; repeat split; reflexivity);
      destruct (RECAPTCHA_ALLOWED_HOSTNAMES env) as [| h0 allowed] eqn:Hallowed;
      cbn [length Nat.eqb negb andb];
      destruct (get (Some parsed) "hostname") as [[| | | h | |] |];
      try destruct (String.eqb h ""); cbn [negb andb];
      try destruct (includes (h0 :: allowed) h); cbn [negb];
      eexists; repeat split; reflexivity.
  - cbn [checks_in_order check_transport first_failure carried].
    destruct name as [n |]; [| eexists; repeat split; reflexivity].
    destruct (String.eqb n "AbortError"); eexists; repeat split; reflexivity.
Qed.

(** The verifier makes no call of its own after the exchange: its trace
    is the trace of the exchange. *)
Lemma verify_trace token tok opts :
  str_truthy (RECAPTCHA_SECRET env) = true ->
  maybe token = Some tok ->
  trace (verifyRecaptchaV3 lib world env token opts)
  = trace (fetch_under_timer world (siteverify_body env tok opts) (budget opts)).
Proof.
  intros Hsecret Htok.
  unfold verifyRecaptchaV3.
  rewrite Hsecret, Htok. cbn [negb].
  rewrite trace_bind, fetch_under_timer_settles.
  match goal with |- _ ++ ?t = _ => assert (Hnil : t = []) end.
  2: { now rewrite Hnil, app_nil_r. }
  match goal with |- context [if ?c then _ else _] =>
    generalize (if c then Rejects (Some "AbortError")
                else settle (fetch world siteverify (siteverify_body env tok opts)))
  end.
  intros [parsed | name].
  - repeat match goal with
           | |- trace (if ?c then _ else _) = _ => destruct c
           end; reflexivity.
  - destruct name as [n |]; [destruct (String.eqb n "AbortError") |]; reflexivity.
Qed.

(** The timer is armed for the budget, in whole milliseconds, when the
    budget is one [setTimeout] takes as it is. *)
Lemma setTimeout_delay_le_budget q :
  Qle_bool 1 q && Qle_bool q 2147483647 = true ->
  (inject_Z (Z.of_N (setTimeout_delay (Fin q))) <= q)%Q.
Proof.
  intros Hrange. unfold setTimeout_delay. rewrite Hrange.
  apply andb_true_iff in Hrange. destruct Hrange as [Hlow _].
  apply Qle_bool_iff in Hlow.
  rewrite Z2N.id; [apply Qfloor_le |].
  apply Z.le_trans with (Qfloor 1); [discriminate |].
  now apply Qfloor_resp_le.
Qed.

(** Without a secret or without a token nothing leaves the process. *)
Lemma verify_trace_early token opts :
  str_truthy (RECAPTCHA_SECRET env) = false \/ maybe token = None ->
  trace (verifyRecaptchaV3 lib world env token opts) = [].
Proof.
  unfold verifyRecaptchaV3.
  intros [H | H].
  - now rewrite H.
  - rewrite H. now destruct (negb _).
Qed.

Lemma verdict_eq v v' :
  reasons_of v = reasons_of v' -> seen_of v = seen_of v' -> v = v'.
Proof.
  destruct v, v'; cbn; intros H1 H2; try discriminate; subst; congruence.
Qed.

(** The first failure is the failure of one of the checks, and every
    check before it passed. *)
Lemma first_failure_found checks reasons :
  first_failure checks = Some reasons ->
  exists i, nth_error checks i = Some (Some reasons)
            /\ forall j, j < i -> nth_error checks j = Some None.
Proof.
  induction checks as [| [rs |] rest IH]; cbn; intros H.
  - discriminate.
  - injection H as ->. exists 0. split; [reflexivity | lia].
  - destruct (IH H) as [i [Hi Hbefore]].
    exists (S i). split; [exact Hi |].
    intros [| j] Hj; [reflexivity | apply Hbefore; lia].
Qed.

(** Each check other than the upstream one reports a single reason. *)
Lemma single_reason_checks opts r i reasons :
  nth_error (checks_in_order lib env opts r) i = Some (Some reasons) ->
  i <> 1 ->
  exists code, reasons = [JStr code].
Proof.
  intros Hi Hne.
  destruct r as [parsed | name]; cbn [checks_in_order] in Hi.
  - destruct i as [| [| [| [| [| i]]]]]; cbn in Hi; try congruence.
    + unfold check_action in Hi.
      destruct (String.eqb _ ""); [discriminate |].
      destruct (get (Some parsed) "action") as [[| | | a | |] |];
        try destruct (String.eqb a _); inversion Hi; eauto.
    + unfold check_score in Hi.
      destruct (get (Some parsed) "score") as [[| | sc | | |] |];
        try destruct (lt sc _); inversion Hi; eauto.
    + unfold check_hostname in Hi.
      destruct (RECAPTCHA_ALLOWED_HOSTNAMES env); [discriminate |].
      destruct (get (Some parsed) "hostname") as [[| | | h | |] |];
        try destruct (String.eqb h ""); try destruct (includes _ h);
        inversion Hi; eauto.
    + destruct i; discriminate.
  - destruct i as [| i]; cbn in Hi; [| destruct i; discriminate].
    destruct name as [n |]; [destruct (String.eqb n "AbortError") |];
      inversion Hi; eauto.
Qed.

(** C4. The checks of the risk verifier run in the fixed order
    transport, upstream-reported failure, action mismatch, score
    threshold, hostname allow-list, and the first that fails decides:
    the verifier answers the reasons of [first_failure] over
    [checks_in_order].  Every check but the upstream one reports exactly
    one reason code, so a rejection that carries another number of
    reasons is an upstream-reported failure carrying the reason codes
    the upstream supplied. *)
Theorem verifier_checks_fixed_order_single_reason token tok opts r :
  str_truthy (RECAPTCHA_SECRET env) = true ->
  maybe token = Some tok ->
  outcome (fetch_under_timer world (siteverify_body env tok opts) (budget opts))
  = inr r ->
  exists v,
    outcome (verifyRecaptchaV3 lib world env token opts) = inr v
    /\ reasons_of v = first_failure (checks_in_order lib env opts r)
    /\ (forall i reasons,
          nth_error (checks_in_order lib env opts r) i = Some (Some reasons) ->
          i <> 1 -> exists code, reasons = [JStr code])
    /\ (forall reasons,
          reasons_of v = Some reasons -> length reasons <> 1 ->
          exists parsed,
            r = Resolves parsed
            /\ truthy (get (Some parsed) "success") = false
            /\ reasons = as_array (get (Some parsed) "error-codes")).
Proof.
  intros Hsecret Htok Hr.
  destruct (verify_after_transport token tok opts r Hsecret Htok Hr)
    as [v [Hv [Hreasons _]]].
  exists v. split; [exact Hv |]. split; [exact Hreasons |].
  split; [intros i reasons; apply single_reason_checks |].
  intros reasons Hrs Hlen.
  rewrite Hreasons in Hrs.
  destruct (first_failure_found _ _ Hrs) as [i [Hi _]].
  destruct (Nat.eq_dec i 1) as [-> | Hne].
  - destruct r as [parsed | name]; cbn in Hi; [| discriminate].
    exists parsed. split; [reflexivity |].
    unfold check_upstream in Hi.
    destruct (truthy (get (Some parsed) "success")); [discriminate |].
    split; [reflexivity |].
    destruct (as_array (get (Some parsed) "error-codes")) as [| c cs];
      injection Hi as <-; [now contradiction Hlen | reflexivity].
  - destruct (single_reason_checks opts r i reasons Hi Hne) as [code ->].
    now contradiction Hlen.
Qed.

(** C5. The call to the scoring service is bounded by the time budget,
    10 000 ms unless the caller gives one: the verifier waits no longer
    than the delay of its timer, which is 10 000 ms by default and no
    more than a budget the caller gives between 1 and 2^31 - 1 ms.  When
    the timer runs first the call in flight is aborted and the answer is
    the single reason
    [verify_timeout]; when the call fails before that, in any other way,
    the answer is the single reason [verify_request_failed].  In every
    case the verifier makes exactly one round trip: nothing is retried. *)
Theorem verifier_call_bounded_not_retried token tok opts :
  str_truthy (RECAPTCHA_SECRET env) = true ->
  maybe token = Some tok ->
  let wire := fetch world siteverify (siteverify_body env tok opts) in
  let delay := setTimeout_delay (budget opts) in
  let run := verifyRecaptchaV3 lib world env token opts in
  (timeoutMs opts = None -> delay = 10000%N)
  /\ (forall q,
        timeoutMs opts = Some (Fin q) ->
        Qle_bool 1 q && Qle_bool q 2147483647 = true ->
        (inject_Z (Z.of_N delay) <= q)%Q)
  /\ round_trips (trace run) = [siteverify_body env tok opts]
  /\ (waited (trace run) <= delay)%N
  /\ (timer_first wire delay = true ->
      aborted (trace run) = true
      /\ waited (trace run) = delay
      /\ outcome run = inr (VFail [JStr "verify_timeout"] nothing_seen))
  /\ (timer_first wire delay = false ->
      forall name,
        settle wire = Rejects name -> name <> Some "AbortError" ->
        aborted (trace run) = false
        /\ outcome run = inr (VFail [JStr "verify_request_failed"] nothing_seen)).
Proof.
  intros Hsecret Htok wire delay run.
  assert (Htrace := verify_trace token tok opts Hsecret Htok).
  fold run in Htrace.
  rewrite fetch_under_timer_trace in Htrace. fold wire delay in Htrace.
  assert (Hsettled := fetch_under_timer_settles
                        (siteverify_body env tok opts) (budget opts)).
  fold wire delay in Hsettled.
  destruct (verify_after_transport token tok opts _ Hsecret Htok Hsettled)
    as [v [Hv [Hreasons Hseen]]].
  fold run in Hv.
  split.
  { intros Hnone. subst delay. unfold budget. rewrite Hnone. reflexivity. }
  split.
  { intros q Hsome Hrange. subst delay. unfold budget. rewrite Hsome.
    now apply setTimeout_delay_le_budget. }
  rewrite Htrace.
  split; [destruct (timer_first wire delay); reflexivity |].
  split.
  { destruct (timer_first wire delay) eqn:Hrace; cbn; [lia |].
    unfold timer_first in Hrace.
    destruct (arrives wire) as [t |]; [| discriminate].
    apply orb_false_iff in Hrace. destruct Hrace as [Hlt _].
    apply N.ltb_ge in Hlt. lia. }
  split.
  - intros Hrace. rewrite Hrace in *. cbn.
    split; [reflexivity |]. split; [lia |].
    rewrite Hv. f_equal. apply verdict_eq; [exact Hreasons | exact Hseen].
  - intros Hrace name Hsettle Hname. rewrite Hrace in *. cbn.
    split; [reflexivity |].
    rewrite Hv. f_equal. apply verdict_eq; [| now rewrite Hseen, Hsettle].
    rewrite Hreasons, Hsettle. cbn.
    destruct name as [n |]; [| reflexivity].
    destruct (String.eqb n "AbortError") eqn:Hn; [| reflexivity].
    apply String.eqb_eq in Hn. now subst n.
Qed.

(** The expected action does not read what the caller supplies when a
    system-wide one is configured. *)
Lemma expected_action_system_wide opts opts' :
  str_truthy (RECAPTCHA_EXPECTED_ACTION env) = true ->
  expected_action env opts' = expected_action env opts.
Proof.
  unfold expected_action. now intros ->.
Qed.

(** C8. In the action check the system-wide expected action has
    priority: when one is configured the answer of the verifier does not
    depend on the expected action the caller supplies, which is read
    only when none is configured ([expected_action]).  When the expected
    action that results is not empty and the upstream-reported action
    differs from it, the verifier rejects with the reason
    [unexpected_action]. *)
Theorem expected_action_priority_and_mismatch token tok opts parsed :
  str_truthy (RECAPTCHA_SECRET env) = true ->
  maybe token = Some tok ->
  outcome (fetch_under_timer world (siteverify_body env tok opts) (budget opts))
  = inr (Resolves parsed) ->
  truthy (get (Some parsed) "success") = true ->
  exists v,
    outcome (verifyRecaptchaV3 lib world env token opts) = inr v
    /\ (expected_action env opts <> "" ->
        as_string (get (Some parsed) "action")
        <> Some (expected_action env opts) ->
        v = VFail [JStr "unexpected_action"] (carried (Resolves parsed)))
    /\ (str_truthy (RECAPTCHA_EXPECTED_ACTION env) = true ->
        expected_action env opts = trim (RECAPTCHA_EXPECTED_ACTION env)
        /\ forall caller,
             outcome (verifyRecaptchaV3 lib world env token
                        {| remoteip := remoteip opts;
                           expectedAction := caller;
                           timeoutMs := timeoutMs opts |}) = inr v)
    /\ (str_truthy (RECAPTCHA_EXPECTED_ACTION env) = false ->
        expected_action env opts
        = trim (match expectedAction opts with
                | Some caller => caller
                | None => ""
                end)).
Proof.
  intros Hsecret Htok Hr Hsuccess.
  destruct (verify_after_transport token tok opts _ Hsecret Htok Hr)
    as [v [Hv [Hreasons Hseen]]].
  exists v. split; [exact Hv |]. split; [| split].
  - intros Hexpected Haction.
    apply verdict_eq; [| exact Hseen].
    rewrite Hreasons. cbn [checks_in_order check_transport first_failure].
    unfold check_upstream. rewrite Hsuccess.
    unfold check_action.
    destruct (String.eqb (expected_action env opts) "") eqn:He.
    { apply String.eqb_eq in He. contradiction. }
    unfold as_string in Haction.
    destruct (get (Some parsed) "action") as [[| | | a | |] |];
      try reflexivity.
    destruct (String.eqb a (expected_action env opts)) eqn:Ha;
      [| reflexivity].
    apply String.eqb_eq in Ha. subst a. contradiction.
  - intros Henv. split.
    { unfold expected_action. now rewrite Henv. }
    intros caller.
    set (opts' := {| remoteip := remoteip opts; expectedAction := caller;
                     timeoutMs := timeoutMs opts |}).
    assert (Hr' : outcome (fetch_under_timer world
                             (siteverify_body env tok opts') (budget opts'))
                  = inr (Resolves parsed)) by exact Hr.
    destruct (verify_after_transport token tok opts' _ Hsecret Htok Hr')
      as [v' [Hv' [Hreasons' Hseen']]].
    rewrite Hv'. f_equal.
    apply verdict_eq; [| congruence].
    rewrite Hreasons, Hreasons'.
    unfold checks_in_order, check_action.
    now rewrite (expected_action_system_wide opts opts' Henv).
  - intros Henv. unfold expected_action. now rewrite Henv.
Qed.

(** C10. A response with [success] true and no numeric score skips the
    score check: whatever the minimum, the verifier never answers
    [low_score] and its answer has no score; when the action check and
    the hostname check pass as well, the verifier accepts. *)
Theorem missing_score_never_low_score token tok opts parsed :
  str_truthy (RECAPTCHA_SECRET env) = true ->
  maybe token = Some tok ->
  outcome (fetch_under_timer world (siteverify_body env tok opts) (budget opts))
  = inr (Resolves parsed) ->
  truthy (get (Some parsed) "success") = true ->
  as_number (get (Some parsed) "score") = None ->
  exists v,
    outcome (verifyRecaptchaV3 lib world env token opts) = inr v
    /\ (forall reasons,
          reasons_of v = Some reasons -> ~ In (JStr "low_score") reasons)
    /\ score (seen_of v) = None
    /\ (check_action env opts parsed = None ->
        check_hostname env parsed = None ->
        v = VOk (carried (Resolves parsed))).
Proof.
  intros Hsecret Htok Hr Hsuccess Hscore.
  destruct (verify_after_transport token tok opts _ Hsecret Htok Hr)
    as [v [Hv [Hreasons Hseen]]].
  assert (Hnoscore : check_score lib env parsed = None).
  { unfold check_score. unfold as_number in Hscore.
    destruct (get (Some parsed) "score") as [[| | sc | | |] |];
      [reflexivity | reflexivity | discriminate | reflexivity
      | reflexivity | reflexivity | reflexivity]. }
  cbn [checks_in_order check_transport first_failure] in Hreasons.
  unfold check_upstream in Hreasons.
  rewrite Hsuccess, Hnoscore in Hreasons.
  exists v. split; [exact Hv |]. split; [| split].
  - intros reasons Hrs Hin. rewrite Hreasons in Hrs.
    destruct (check_action env opts parsed) as [ra |] eqn:Ha.
    + injection Hrs as <-.
      unfold check_action in Ha.
      destruct (String.eqb _ ""); [discriminate |].
      destruct (get (Some parsed) "action") as [[| | | a | |] |];
        try destruct (String.eqb a _); try discriminate;
        injection Ha as <-; destruct Hin as [Hin | []]; discriminate.
    + destruct (check_hostname env parsed) as [rh |] eqn:Hh; [| discriminate].
      injection Hrs as <-.
      unfold check_hostname in Hh.
      destruct (RECAPTCHA_ALLOWED_HOSTNAMES env); [discriminate |].
      destruct (get (Some parsed) "hostname") as [[| | | h | |] |];
        try discriminate.
      destruct (String.eqb h ""); [discriminate |].
      destruct (includes _ h); [discriminate |].
      injection Hh as <-. destruct Hin as [Hin | []]; discriminate.
  - rewrite Hseen. exact Hscore.
  - intros Ha Hh. apply verdict_eq; [| exact Hseen].
    rewrite Hreasons, Ha, Hh. reflexivity.
Qed.

End Verifier.

(** ** The mailer *)

Section Mailer.

Variable lib : Lib.
Variable world : World.
Variable env : Env.

Lemma prop_present o k :
  nullish o = false -> prop o k = ret (get o k).
Proof.
  destruct o as [[| | | | |] |]; cbn; intros H; try discriminate; reflexivity.
Qed.

Lemma prop_absent o k :
  nullish o = true -> exists message, prop o k = throw (TypeError message).
Proof.
  destruct o as [[| | | | |] |]; cbn; intros H; try discriminate; eauto.
Qed.

Lemma is_str_true v s : is_str v s = true -> v = Some (JStr s).
Proof.
  destruct v as [[| | | s' | |] |]; cbn; intros H; try discriminate.
  apply String.eqb_eq in H. now subst.
Qed.

Lemma kind_of_code_inv code k :
  kind_of_code code = Some k -> code = Some (JStr (code_of k)).
Proof.
  unfold kind_of_code.
  destruct (is_str code "CREATED_ACTIVE") eqn:H1.
  { intros [= <-]. now apply is_str_true. }
  destruct (is_str code "CREATED_PENDING") eqn:H2.
  { intros [= <-]. now apply is_str_true. }
  destruct (is_str code "CREATED_CANCELED") eqn:H3; [| discriminate].
  intros [= <-]. now apply is_str_true.
Qed.


Lemma choose_templates_ineligible code vars existing :
  kind_of_code code = None ->
  choose_templates lib world code vars existing
  = throw (Error ("Unknown result.code: " ++ js_String lib code)%string).
Proof.
  unfold kind_of_code, choose_templates.
  destruct (is_str code "CREATED_ACTIVE"); [discriminate |].
  destruct (is_str code "CREATED_PENDING"); [discriminate |].
  destruct (is_str code "CREATED_CANCELED"); [discriminate | reflexivity].
Qed.

(** C9 (amended). For every outcome payload whose code is outside
    CREATED_ACTIVE, CREATED_PENDING and CREATED_CANCELED the mailer
    throws and hands nothing to the SMTP server.  What it throws is the
    unknown-code error whenever the payload carries the reservation,
    person and performance snapshots and the QR encoder succeeds: the
    mailer reads them before it looks at the code. *)
Theorem ineligible_outcome_throws_without_dispatch payload :
  kind_of_code (get payload "code") = None ->
  dispatches (trace (sendReservationEmail lib world env payload)) = []
  /\ (exists e, outcome (sendReservationEmail lib world env payload) = inl e)
  /\ (nullish (get payload "reservation") = false ->
      nullish (get payload "person") = false ->
      nullish (get payload "performance") = false ->
      QRCode_toBuffer world (get (get payload "reservation") "id") <> None ->
      outcome (sendReservationEmail lib world env payload)
      = inl (Error ("Unknown result.code: "
                    ++ js_String lib (get payload "code"))%string)).
Proof.
  intros Hcode.
  unfold sendReservationEmail.
  destruct (truthy payload) eqn:Htruthy; cbn [negb].
  2: { cbn. split; [reflexivity |]. split; [eauto |].
       intros Hres. destruct payload as [[| | | | |] |]; discriminate. }
  destruct (nullish (get payload "reservation")) eqn:Hres.
  { destruct (prop_absent _ "code" Hres) as [m ->]. rewrite bind_throw. cbn.
    split; [reflexivity |]. split; [eauto | discriminate]. }
  rewrite !(prop_present _ _ Hres), !bind_ret.
  destruct (nullish (get payload "person")) eqn:Hper.
  { destruct (prop_absent _ "name" Hper) as [m ->]. rewrite bind_throw. cbn.
    split; [reflexivity |]. split; [eauto | discriminate]. }
  rewrite !(prop_present _ _ Hper), !bind_ret.
  destruct (nullish (get payload "performance")) eqn:Hperf.
  { destruct (prop_absent _ "name" Hperf) as [m ->]. rewrite bind_throw. cbn.
    split; [reflexivity |]. split; [eauto | discriminate]. }
  rewrite !(prop_present _ _ Hperf), !bind_ret.
  unfold makeQrPng.
  destruct (QRCode_toBuffer world _) as [png |].
  2: { rewrite bind_throw. cbn.
       split; [reflexivity |]. split; [eauto |]. intros _ _ _ H. now contradiction H. }
  rewrite bind_ret, bind_emit.
  rewrite (choose_templates_ineligible _ _ _ Hcode), bind_throw. cbn.
  split; [reflexivity |]. split; [eauto | reflexivity].
Qed.




Lemma prop_quiet o k : dispatches (trace (prop o k)) = [].
Proof.
  now destruct o as [[| | | | |] |].
Qed.

Lemma resolve_quiet file :
  dispatches (trace (resolveTemplatePath lib world file)) = [].
Proof.
  unfold resolveTemplatePath. now destruct (find _ _).
Qed.

Lemma render_quiet file vars :
  dispatches (trace (renderTemplate world file vars)) = [].
Proof.
  unfold renderTemplate.
  destruct (readFileSync world file) as [tpl |]; [| reflexivity].
  now destruct (Handlebars world tpl vars).
Qed.

Lemma quiet_bind {A B} (c : IO A) (k : A -> IO B) :
  dispatches (trace c) = [] ->
  (forall a, dispatches (trace (k a)) = []) ->
  dispatches (trace (bind c k)) = [].
Proof.
  intros Hc Hk.
  rewrite trace_bind. unfold dispatches at 1. rewrite flat_map_app.
  fold (dispatches (trace c)). rewrite Hc. cbn [app].
  destruct (outcome c) as [e | a]; [reflexivity | apply Hk].
Qed.

Lemma choose_templates_quiet code vars existing :
  dispatches (trace (choose_templates lib world code vars existing)) = [].
Proof.
  unfold choose_templates.
  repeat match goal with
         | |- context [if is_str ?v ?s then _ else _] => destruct (is_str v s)
         end;
    try reflexivity;
    repeat (apply quiet_bind; [apply resolve_quiet | intros ?]);
    reflexivity.
Qed.


End Mailer.

(** ** The orchestrator *)

Section Orchestrator.

Variable lib : Lib.
Variable world : World.
Variable env : Env.

(** The verifier never throws. *)
Lemma verify_returns token opts :
  exists v, outcome (verifyRecaptchaV3 lib world env token opts) = inr v.
Proof.
  destruct (str_truthy (RECAPTCHA_SECRET env)) eqn:Hsecret.
  - destruct (maybe token) as [tok |] eqn:Htok.
    + destruct (verify_after_transport lib world env token tok opts _
                  Hsecret Htok (fetch_under_timer_settles world _ _))
        as [v [Hv _]].
      eauto.
    + unfold verifyRecaptchaV3. rewrite Hsecret, Htok. cbn. eauto.
  - unfold verifyRecaptchaV3. rewrite Hsecret. cbn. eauto.
Qed.

(** The verifier calls neither the backend nor the SMTP server. *)
Lemma verify_calls token opts :
  queries (trace (verifyRecaptchaV3 lib world env token opts)) = []
  /\ dispatches (trace (verifyRecaptchaV3 lib world env token opts)) = [].
Proof.
  destruct (str_truthy (RECAPTCHA_SECRET env)) eqn:Hsecret.
  - destruct (maybe token) as [tok |] eqn:Htok.
    + rewrite (verify_trace lib world env token tok opts Hsecret Htok).
      rewrite fetch_under_timer_trace.
      destruct (timer_first _ _); split; reflexivity.
    + rewrite verify_trace_early; [split; reflexivity | now right].
  - rewrite verify_trace_early; [split; reflexivity | now left].
Qed.

(** The reCAPTCHA block, case by case. *)
Lemma step_skipped req :
  token_supplied req = false -> recaptcha_step lib world env req = ret None.
Proof.
  unfold token_supplied, recaptcha_step. now intros ->.
Qed.

Lemma step_verified req v :
  token_supplied req = true ->
  outcome (verification lib world env req) = inr v ->
  recaptcha_step lib world env req
  = (trace (verification lib world env req),
     inr (if ok v then None else Some (recaptcha_failed v))).
Proof.
  unfold token_supplied, recaptcha_step, verification.
  intros -> Hv.
  destruct (verifyRecaptchaV3 _ _ _ _ _) as [t [e | v']]; cbn in Hv;
    [discriminate |].
  injection Hv as ->.
  unfold bind. destruct (ok v); cbn; now rewrite app_nil_r.
Qed.

Lemma step_calls req :
  queries (trace (recaptcha_step lib world env req)) = []
  /\ dispatches (trace (recaptcha_step lib world env req)) = [].
Proof.
  destruct (token_supplied req) eqn:Htok.
  - destruct (verify_returns (Body.recaptcha (body req))
                (verify_options env req)) as [v Hv].
    rewrite (step_verified req v Htok Hv). apply verify_calls.
  - rewrite (step_skipped req Htok). split; reflexivity.
Qed.

(** The step lets the request through exactly when the risk check
    passed. *)
Lemma step_passed req :
  risk_passed lib world env req ->
  outcome (recaptcha_step lib world env req) = inr None.
Proof.
  intros Hrisk.
  destruct (token_supplied req) eqn:Htok.
  - destruct (Hrisk Htok) as [v [Hv Hok]].
    rewrite (step_verified req v Htok Hv), Hok. reflexivity.
  - now rewrite (step_skipped req Htok).
Qed.

Lemma step_passed_inv req :
  outcome (recaptcha_step lib world env req) = inr None ->
  risk_passed lib world env req.
Proof.
  intros Hstep Htok.
  destruct (verify_returns (Body.recaptcha (body req))
              (verify_options env req)) as [v Hv].
  exists v. split; [exact Hv |].
  rewrite (step_verified req v Htok Hv) in Hstep. cbn in Hstep.
  now destruct (ok v).
Qed.


Lemma dispatches_app t t' : dispatches (t ++ t') = dispatches t ++ dispatches t'.
Proof.
  apply flat_map_app.
Qed.

(** A request that passed validation and the reCAPTCHA step: the handler queries
    the backend once and responds to the outcome; what the response
    block throws becomes the server error. *)
Lemma create_delegated req rows :
  delegated lib world env req rows ->
  exists args,
    trace (createReservation lib world env req)
    = trace (recaptcha_step lib world env req)
      ++ EvQuery create_sql args
      :: trace (respond_to_create lib world env (first_result rows))
    /\ outcome (createReservation lib world env req)
       = match outcome (respond_to_create lib world env (first_result rows)) with
         | inl _ => inr (server_error "Αποτυχία δημιουργίας κράτησης")
         | inr response => inr response
         end.
Proof.
  intros (data & phoneParsed & (Hparse & Hphone & Hvalid) & Hrisk & Hquery).
  assert (Hstep := step_passed req Hrisk).
  eexists.
  unfold createReservation.
  rewrite Hparse, Hphone, Hvalid. cbn [negb].
  rewrite trace_try_catch, outcome_try_catch.
  rewrite !trace_bind, !outcome_bind, Hstep.
  unfold pool_query. rewrite Hquery. rewrite bind_emit. cbn [trace outcome fst snd].
  rewrite !trace_bind, !outcome_bind. cbn [trace outcome fst snd ret app].
  split; [| reflexivity].
  destruct (outcome (respond_to_create lib world env (first_result rows)));
    now rewrite app_nil_r.
Qed.

(** A valid request whose token the verifier rejects ends at the
    reCAPTCHA step. *)
Lemma create_blocked req data phoneParsed v :
  identity_valid lib req data phoneParsed ->
  token_supplied req = true ->
  outcome (verification lib world env req) = inr v ->
  ok v = false ->
  createReservation lib world env req
  = (trace (verification lib world env req), inr (recaptcha_failed v)).
Proof.
  intros (Hparse & Hphone & Hvalid) Htok Hv Hok.
  unfold createReservation.
  rewrite Hparse, Hphone, Hvalid. cbn [negb].
  rewrite (step_verified req v Htok Hv), Hok.
  cbn. now rewrite !app_nil_r.
Qed.

(** A request that fails validation ends before anything leaves the
    process. *)
Lemma create_invalid req :
  (forall data phoneParsed, ~ identity_valid lib req data phoneParsed) ->
  exists response,
    createReservation lib world env req = ([], inr response)
    /\ client_rejection response
    /\ status response = 400.
Proof.
  intros Hinvalid.
  unfold createReservation.
  destruct (UserSchema_safeParse lib _ _ _ _) as [fieldErrors | data] eqn:Hparse.
  { eexists. split; [reflexivity |]. split; [| reflexivity].
    split; [reflexivity | now left]. }
  destruct (parsePhoneNumberFromString lib _ _) as [phoneParsed |] eqn:Hphone.
  2: { exists invalid_phone. split; [reflexivity |]. split; [| reflexivity].
       split; [reflexivity | now left]. }
  destruct (isValid phoneParsed) eqn:Hvalid; cbn [negb].
  { exfalso. apply (Hinvalid data phoneParsed). now repeat split. }
  exists invalid_phone. split; [reflexivity |]. split; [| reflexivity].
  split; [reflexivity | now left].
Qed.

(** C1. The transactional backend is never called unless identity-field
    validation and phone normalization succeeded and, when a risk token
    was supplied, risk verification returned ok.  A validation failure
    ends the request with a 400 rejection and a verification failure
    with the 200 rejection of the reCAPTCHA step, in both cases with no
    call to the backend. *)
Theorem backend_only_after_validation_and_verification req :
  (queries (trace (createReservation lib world env req)) <> [] ->
   (exists data phoneParsed, identity_valid lib req data phoneParsed)
   /\ risk_passed lib world env req)
  /\ ((forall data phoneParsed, ~ identity_valid lib req data phoneParsed) ->
      exists response,
        outcome (createReservation lib world env req) = inr response
        /\ client_rejection response
        /\ queries (trace (createReservation lib world env req)) = [])
  /\ (~ risk_passed lib world env req ->
      (exists data phoneParsed, identity_valid lib req data phoneParsed) ->
      exists response,
        outcome (createReservation lib world env req) = inr response
        /\ client_rejection response
        /\ queries (trace (createReservation lib world env req)) = []).
Proof.
  split; [| split].
  - intros Hreached.
    unfold createReservation in Hreached.
    destruct (UserSchema_safeParse lib _ _ _ _) as [fieldErrors | data] eqn:Hparse.
    { exfalso. now apply Hreached. }
    destruct (parsePhoneNumberFromString lib _ _) as [phoneParsed |] eqn:Hphone.
    2: { exfalso. now apply Hreached. }
    destruct (isValid phoneParsed) eqn:Hvalid; cbn [negb] in Hreached.
    2: { exfalso. now apply Hreached. }
    split; [exists data, phoneParsed; now repeat split |].
    apply step_passed_inv.
    destruct (step_calls req) as [Hquiet _].
    rewrite trace_try_catch, outcome_bind, trace_bind in Hreached.
    destruct (outcome (recaptcha_step lib world env req)) as [e | [response |]];
      [| | reflexivity];
      cbn in Hreached; rewrite !app_nil_r in Hreached; contradiction.
  - intros Hinvalid.
    destruct (create_invalid req Hinvalid) as (response & -> & Hrej & _).
    exists response. split; [reflexivity | split; [exact Hrej | reflexivity]].
  - intros Hrisk (data & phoneParsed & Hvalid).
    destruct (token_supplied req) eqn:Htok.
    2: { exfalso. apply Hrisk. intros H. unfold token_supplied in *. congruence. }
    destruct (verify_returns (Body.recaptcha (body req))
                (verify_options env req)) as [v Hv].
    destruct (ok v) eqn:Hok.
    { exfalso. apply Hrisk. intros _. now exists v. }
    rewrite (create_blocked req data phoneParsed v Hvalid Htok Hv Hok).
    exists (recaptcha_failed v). split; [reflexivity |].
    split; [split; [reflexivity | now right] |].
    apply verify_calls.
Qed.

(** C7. When the verifier rejects a supplied risk token, the
    orchestrator answers the soft-accepted envelope: status 200, a body
    with [ok: false], the code [RECAPTCHA_FAILED] and the verification,
    with its reasons, under [meta]; no field-error list, no error
    status, and no call to the backend. *)
Theorem risk_rejection_soft_envelope req data phoneParsed reasons seen :
  identity_valid lib req data phoneParsed ->
  token_supplied req = true ->
  outcome (verification lib world env req) = inr (VFail reasons seen) ->
  exists response,
    outcome (createReservation lib world env req) = inr response
    /\ status response = 200
    /\ get (Some (payload response)) "ok" = Some (JBool false)
    /\ get (Some (payload response)) "code" = Some (JStr "RECAPTCHA_FAILED")
    /\ get (Some (payload response)) "meta"
       = Some (verify_json (VFail reasons seen))
    /\ get (get (Some (payload response)) "meta") "reasons"
       = Some (JArr reasons)
    /\ get (Some (payload response)) "errors" = None
    /\ queries (trace (createReservation lib world env req)) = [].
Proof.
  intros Hvalid Htok Hv.
  rewrite (create_blocked req data phoneParsed _ Hvalid Htok Hv eq_refl).
  exists (recaptcha_failed (VFail reasons seen)).
  repeat split; try reflexivity.
  apply verify_calls.
Qed.

(** The two short handlers: one query, then the response block. *)
Lemma confirm_queried req rows :
  query world confirm_sql [SqlText (id req); SqlBool false] = QueryRows rows ->
  trace (confirmReservation lib world env req)
  = EvQuery confirm_sql [SqlText (id req); SqlBool false]
    :: trace (respond_to_confirm lib world env (first_result rows))
  /\ outcome (confirmReservation lib world env req)
     = match outcome (respond_to_confirm lib world env (first_result rows)) with
       | inl _ => inr (server_error "Αποτυχία επιβεβαίωσης κράτησης")
       | inr response => inr response
       end.
Proof.
  intros Hquery.
  unfold confirmReservation, pool_query.
  rewrite Hquery, bind_emit. cbn [trace outcome fst snd].
  rewrite trace_try_catch, outcome_try_catch. cbn [trace outcome fst snd].
  rewrite trace_bind, outcome_bind. cbn [trace outcome fst snd ret app].
  split; [| reflexivity].
  destruct (outcome (respond_to_confirm lib world env (first_result rows)));
    now rewrite app_nil_r.
Qed.

Lemma cancel_queried req rows :
  query world cancel_sql [SqlText (id req); SqlBool false] = QueryRows rows ->
  trace (cancelReservation lib world env req)
  = EvQuery cancel_sql [SqlText (id req); SqlBool false]
    :: trace (respond_to_cancel lib world env (first_result rows))
  /\ outcome (cancelReservation lib world env req)
     = match outcome (respond_to_cancel lib world env (first_result rows)) with
       | inl _ => inr (server_error "Αποτυχία ακύρωσης κράτησης")
       | inr response => inr response
       end.
Proof.
  intros Hquery.
  unfold cancelReservation, pool_query.
  rewrite Hquery, bind_emit. cbn [trace outcome fst snd].
  rewrite trace_try_catch, outcome_try_catch. cbn [trace outcome fst snd].
  rewrite trace_bind, outcome_bind. cbn [trace outcome fst snd ret app].
  split; [| reflexivity].
  destruct (outcome (respond_to_cancel lib world env (first_result rows)));
    now rewrite app_nil_r.
Qed.

(** C2 (amended). When the outcome code is CREATED_ACTIVE or
    CREATED_PENDING and the notification dispatch throws, the response
    is the generic server error (status 500): the handler awaits the
    mailer inside its [try].  The success response determined by the
    outcome code is sent when the dispatch completes. *)
Theorem dispatch_failure_answers_server_error req rows :
  delegated lib world env req rows ->
  is_str (get (Some (first_result rows)) "code") "CREATED_ACTIVE"
  || is_str (get (Some (first_result rows)) "code") "CREATED_PENDING" = true ->
  (forall e,
      outcome (sendReservationEmail lib world env (Some (first_result rows)))
      = inl e ->
      outcome (createReservation lib world env req)
      = inr (server_error "Αποτυχία δημιουργίας κράτησης"))
  /\ (outcome (sendReservationEmail lib world env (Some (first_result rows)))
      = inr tt ->
      outcome (createReservation lib world env req)
      = inr {| status := 200; payload := first_result rows |}).
Proof.
  intros Hdelegated Hcode.
  destruct (create_delegated req rows Hdelegated) as [args [_ ->]].
  unfold respond_to_create. rewrite Hcode, outcome_bind.
  split.
  - intros e ->. reflexivity.
  - intros ->. reflexivity.
Qed.

Lemma unrecognized_code code name :
  recognized code = false -> In name outcome_codes -> is_str code name = false.
Proof.
  unfold recognized. intros Hnone Hin.
  destruct (is_str code name) eqn:Hname; [| reflexivity].
  rewrite <- Hnone. symmetry. apply existsb_exists. eauto.
Qed.

Lemma is_str_other v s s' :
  is_str v s = true -> String.eqb s s' = false -> is_str v s' = false.
Proof.
  intros Hv Hs. apply is_str_true in Hv. subst v. exact Hs.
Qed.

(** C3 (amended). Each route has its own table.  In the create route
    DUPLICATE_SAME_DATETIME answers 409 while NO_PERMISSION and every
    code that is not recognized answer 400; in the cancel route
    NO_PERMISSION answers 403 while DUPLICATE_SAME_DATETIME and every
    code that is not recognized answer 400; so in these two routes a
    code that is not recognized is never answered as a success.  The
    confirm route answers 200 to every code other than CREATED_ACTIVE,
    recognized or not. *)
Theorem outcome_classification_by_route req created canceled confirmed :
  delegated lib world env req created ->
  query world cancel_sql [SqlText (id req); SqlBool false] = QueryRows canceled ->
  query world confirm_sql [SqlText (id req); SqlBool false] = QueryRows confirmed ->
  (let result := first_result created in
   let code := get (Some result) "code" in
   (is_str code "DUPLICATE_SAME_DATETIME" = true ->
    outcome (createReservation lib world env req)
    = inr {| status := 409; payload := result |})
   /\ (is_str code "NO_PERMISSION" = true \/ recognized code = false ->
       outcome (createReservation lib world env req)
       = inr {| status := 400; payload := result |}))
  /\ (let result := first_result canceled in
      let code := get (Some result) "code" in
      (is_str code "NO_PERMISSION" = true ->
       outcome (cancelReservation lib world env req)
       = inr {| status := 403; payload := result |})
      /\ (is_str code "DUPLICATE_SAME_DATETIME" = true \/ recognized code = false ->
          outcome (cancelReservation lib world env req)
          = inr {| status := 400; payload := result |}))
  /\ (let result := first_result confirmed in
      let code := get (Some result) "code" in
      is_str code "CREATED_ACTIVE" = false ->
      outcome (confirmReservation lib world env req)
      = inr {| status := 200; payload := result |}).
Proof.
  intros Hcreate Hcancel Hconfirm.
  destruct (create_delegated req created Hcreate) as [args [_ ->]].
  destruct (cancel_queried req canceled Hcancel) as [_ ->].
  destruct (confirm_queried req confirmed Hconfirm) as [_ ->].
  cbv zeta.
  unfold respond_to_create, respond_to_cancel, respond_to_confirm.
  repeat split.
  - intros H. now rewrite (is_str_true _ _ H).
  - intros [H | H]; [now rewrite (is_str_true _ _ H) |].
    assert (Hall := fun name => unrecognized_code _ name H).
    rewrite !Hall by (cbn; tauto). reflexivity.
  - intros H. now rewrite (is_str_true _ _ H).
  - intros [H | H]; [now rewrite (is_str_true _ _ H) |].
    assert (Hall := fun name => unrecognized_code _ name H).
    rewrite !Hall by (cbn; tauto). reflexivity.
  - now intros ->.
Qed.


End Orchestrator.

(** * The properties at work on the sample deployment *)

Section Scenarios.

Import Sample.

(** A score of 0.9 with the expected action is accepted and the score is
    carried through. *)
Example scenario_accepted :
  outcome (verifyRecaptchaV3 lib (scored human) env (Some "03AGdBq2") no_options)
  = inr (VOk {| score := Some (Fin (9 # 10)); action := Some "reserve";
                hostname := Some "reservations.lappasproductions.gr" |}).
Proof.
  reflexivity.
Qed.

(** A score of 0.2 is rejected with [low_score], the score attached. *)
Example scenario_low_score :
  outcome (verifyRecaptchaV3 lib (scored robot) env (Some "03AGdBq2") no_options)
  = inr (VFail [JStr "low_score"]
           {| score := Some (Fin (2 # 10)); action := Some "reserve";
              hostname := None |}).
Proof.
  reflexivity.
Qed.

(** A valid request with an accepted token reaches the backend once and
    the confirmation is sent once. *)
Example scenario_reserved :
  queries (trace (createReservation lib (answering "CREATED_ACTIVE") env visitor))
  = [(create_sql, [SqlText "{...}"])]
  /\ length (dispatches
               (trace (createReservation lib (answering "CREATED_ACTIVE") env
                         visitor))) = 1
  /\ outcome (createReservation lib (answering "CREATED_ACTIVE") env visitor)
     = inr {| status := 200; payload := result "CREATED_ACTIVE" |}.
Proof.
  repeat split; reflexivity.
Qed.

(** A scoring service that cannot be reached is a rejection, after one
    round trip and without an abort. *)
Example scenario_unreachable :
  verifyRecaptchaV3 lib (scored unreachable) env (Some "03AGdBq2") no_options
  = ([EvFetch siteverify [("secret", "6Lc-secret"); ("response", "03AGdBq2")];
      EvAwaited 35],
     inr (VFail [JStr "verify_request_failed"] nothing_seen)).
Proof.
  reflexivity.
Qed.

(** A malformed phone number never reaches the backend. *)
Example scenario_invalid_phone :
  createReservation lib (answering "CREATED_ACTIVE") env
    (request "12" (Some "03AGdBq2"))
  = ([], inr invalid_phone).
Proof.
  reflexivity.
Qed.

End Scenarios.

(** * The theorems on the sample deployment, and where the
    specification departs from the program *)

(** C4 on the sample deployment: a response that fails the action, score
    and hostname checks at once is rejected for the action alone. *)
Lemma verifier_checks_fixed_order_witness :
  str_truthy (RECAPTCHA_SECRET Sample.env) = true
  /\ maybe (Some "03AGdBq2") = Some "03AGdBq2"
  /\ outcome (fetch_under_timer (Sample.scored Sample.impostor)
                (siteverify_body Sample.env "03AGdBq2" Sample.no_options)
                (budget Sample.no_options))
     = inr (settle Sample.impostor)
  /\ exists v,
       outcome (verifyRecaptchaV3 Sample.lib (Sample.scored Sample.impostor)
                  Sample.env (Some "03AGdBq2") Sample.no_options) = inr v
       /\ reasons_of v = Some [JStr "unexpected_action"].
Proof.
  split; [reflexivity |]. split; [reflexivity |]. split; [reflexivity |].
  destruct (verifier_checks_fixed_order_single_reason
              Sample.lib (Sample.scored Sample.impostor) Sample.env
              (Some "03AGdBq2") "03AGdBq2" Sample.no_options
              (settle Sample.impostor) eq_refl eq_refl eq_refl)
    as [v [Hv [Hreasons _]]].
  exists v. split; [exact Hv |].
  rewrite Hreasons. reflexivity.
Defined.

(** C5 on the sample deployment: a scoring service that never answers is
    given up after 10 000 ms and one round trip. *)
Lemma verifier_call_bounded_witness :
  str_truthy (RECAPTCHA_SECRET Sample.env) = true
  /\ maybe (Some "03AGdBq2") = Some "03AGdBq2"
  /\ round_trips (trace (verifyRecaptchaV3 Sample.lib (Sample.scored Sample.silent)
                           Sample.env (Some "03AGdBq2") Sample.no_options))
     = [[("secret", "6Lc-secret"); ("response", "03AGdBq2")]]
  /\ waited (trace (verifyRecaptchaV3 Sample.lib (Sample.scored Sample.silent)
                      Sample.env (Some "03AGdBq2") Sample.no_options))
     = 10000%N
  /\ outcome (verifyRecaptchaV3 Sample.lib (Sample.scored Sample.silent)
                Sample.env (Some "03AGdBq2") Sample.no_options)
     = inr (VFail [JStr "verify_timeout"] nothing_seen).
Proof.
  split; [reflexivity |]. split; [reflexivity |].
  destruct (verifier_call_bounded_not_retried
              Sample.lib (Sample.scored Sample.silent) Sample.env
              (Some "03AGdBq2") "03AGdBq2" Sample.no_options eq_refl eq_refl)
    as (Hdefault & _ & Htrips & _ & Htimeout & _).
  destruct (Htimeout eq_refl) as (_ & Hwaited & Hanswer).
  split; [exact Htrips |]. split; [| exact Hanswer].
  rewrite Hwaited. exact (Hdefault eq_refl).
Defined.

(** C8 on the sample deployment: the system-wide action [reserve] decides,
    whatever the caller expects. *)
Lemma expected_action_priority_witness :
  str_truthy (RECAPTCHA_SECRET Sample.env) = true
  /\ maybe (Some "03AGdBq2") = Some "03AGdBq2"
  /\ truthy (get (Some (JObj [("success", JBool true);
                              ("score", JNum (Fin (1 # 10)));
                              ("action", JStr "login");
                              ("hostname", JStr "evil.example")])) "success")
     = true
  /\ forall caller,
       exists v,
         outcome (verifyRecaptchaV3 Sample.lib (Sample.scored Sample.impostor)
                    Sample.env (Some "03AGdBq2")
                    {| remoteip := None; expectedAction := caller;
                       timeoutMs := None |}) = inr v
         /\ reasons_of v = Some [JStr "unexpected_action"].
Proof.
  split; [reflexivity |]. split; [reflexivity |]. split; [reflexivity |].
  intros caller.
  destruct (expected_action_priority_and_mismatch
              Sample.lib (Sample.scored Sample.impostor) Sample.env
              (Some "03AGdBq2") "03AGdBq2" Sample.no_options _
              eq_refl eq_refl eq_refl eq_refl)
    as (v & _ & Hmismatch & Hsystem & _).
  exists v. split; [exact (proj2 (Hsystem eq_refl) caller) |].
  rewrite Hmismatch; [reflexivity | discriminate | discriminate].
Defined.

(** C10 on the sample deployment: a passing response without a score is
    accepted, with no score in the answer. *)
Lemma missing_score_witness :
  str_truthy (RECAPTCHA_SECRET Sample.env) = true
  /\ maybe (Some "03AGdBq2") = Some "03AGdBq2"
  /\ outcome (verifyRecaptchaV3 Sample.lib (Sample.scored Sample.scoreless)
                Sample.env (Some "03AGdBq2") Sample.no_options)
     = inr (VOk {| score := None; action := Some "reserve";
                   hostname := Some "lappas-tickets.netlify.app" |}).
Proof.
  split; [reflexivity |]. split; [reflexivity |].
  destruct (missing_score_never_low_score
              Sample.lib (Sample.scored Sample.scoreless) Sample.env
              (Some "03AGdBq2") "03AGdBq2" Sample.no_options _
              eq_refl eq_refl eq_refl eq_refl eq_refl)
    as (v & Hv & _ & _ & Haccepted).
  rewrite Hv, (Haccepted eq_refl eq_refl). reflexivity.
Defined.

(** The sample visitor passes validation. *)
Lemma visitor_valid :
  identity_valid Sample.lib Sample.visitor
    {| UserData.name := "A"; UserData.surname := "B";
       UserData.email := "a@b.com"; UserData.phone := "6912345678" |}
    {| isValid := true; number_ := "+306912345678" |}.
Proof.
  repeat split.
Qed.

(** With the sample scoring service the visitor is delegated. *)
Lemma visitor_delegated db smtp :
  delegated Sample.lib (Sample.world Sample.human (Sample.rows db) smtp)
    Sample.env Sample.visitor [JObj [("result", db)]].
Proof.
  eexists. eexists. split; [exact visitor_valid |].
  split; [| reflexivity].
  intros _. eexists. split; reflexivity.
Qed.


(** C7 on the sample deployment: a low score answers the envelope, status
    200, with the reason under [meta]. *)
Lemma risk_rejection_witness :
  token_supplied Sample.visitor = true
  /\ exists response,
       outcome (createReservation Sample.lib (Sample.scored Sample.robot)
                  Sample.env Sample.visitor) = inr response
       /\ status response = 200
       /\ get (get (Some (payload response)) "meta") "reasons"
          = Some (JArr [JStr "low_score"]).
Proof.
  split; [reflexivity |].
  destruct (risk_rejection_soft_envelope
              Sample.lib (Sample.scored Sample.robot) Sample.env
              Sample.visitor _ _ [JStr "low_score"]
              {| score := Some (Fin (2 # 10)); action := Some "reserve";
                 hostname := None |}
              visitor_valid eq_refl eq_refl)
    as (response & Hresponse & Hstatus & _ & _ & _ & Hreasons & _).
  exists response. split; [exact Hresponse |]. split; assumption.
Defined.

(** C2, counterexample. The backend answers CREATED_ACTIVE, the SMTP
    server rejects the message, and the caller receives status 500
    instead of the success response of the outcome code. *)
Lemma dispatch_failure_replaces_success :
  get (Some (first_result [JObj [("result", Sample.result "CREATED_ACTIVE")]]))
    "code" = Some (JStr "CREATED_ACTIVE")
  /\ outcome (sendReservationEmail Sample.lib (Sample.smtp_down "CREATED_ACTIVE")
                Sample.env (Some (Sample.result "CREATED_ACTIVE")))
     = inl (Rejected "transporter.sendMail")
  /\ outcome (createReservation Sample.lib (Sample.smtp_down "CREATED_ACTIVE")
                Sample.env Sample.visitor)
     = inr (server_error "Αποτυχία δημιουργίας κράτησης")
  /\ outcome (createReservation Sample.lib (Sample.smtp_down "CREATED_ACTIVE")
                Sample.env Sample.visitor)
     <> inr {| status := 200; payload := Sample.result "CREATED_ACTIVE" |}.
Proof.
  repeat split; try reflexivity. discriminate.
Qed.

(** C2 (amended) on the sample deployment, for CREATED_PENDING. *)
Lemma dispatch_failure_witness :
  is_str (get (Some (Sample.result "CREATED_PENDING")) "code") "CREATED_PENDING"
  = true
  /\ outcome (createReservation Sample.lib (Sample.smtp_down "CREATED_PENDING")
                Sample.env Sample.visitor)
     = inr (server_error "Αποτυχία δημιουργίας κράτησης").
Proof.
  split; [reflexivity |].
  exact (proj1 (dispatch_failure_answers_server_error
                  Sample.lib (Sample.smtp_down "CREATED_PENDING") Sample.env
                  Sample.visitor _ (visitor_delegated _ false) eq_refl)
           (Rejected "transporter.sendMail") eq_refl).
Defined.

(** C3, counterexample. The confirm route answers a code outside the
    table with status 200, the status of a success; and the create route
    answers NO_PERMISSION with 400 where the table says 403. *)
Lemma unrecognized_code_answered_as_success :
  recognized (Some (JStr "SOMETHING_ELSE")) = false
  /\ outcome (confirmReservation Sample.lib (Sample.refusing "SOMETHING_ELSE")
                Sample.env Sample.visitor)
     = inr {| status := 200; payload := Sample.refusal "SOMETHING_ELSE" |}
  /\ outcome (createReservation Sample.lib (Sample.refusing "NO_PERMISSION")
                Sample.env Sample.visitor)
     = inr {| status := 400; payload := Sample.refusal "NO_PERMISSION" |}.
Proof.
  repeat split; reflexivity.
Qed.

(** C3 (amended) on the sample deployment: NO_PERMISSION is 400 in the
    create route, 403 in the cancel route, 200 in the confirm route. *)
Lemma outcome_classification_witness :
  outcome (createReservation Sample.lib (Sample.refusing "NO_PERMISSION")
             Sample.env Sample.visitor)
  = inr {| status := 400; payload := Sample.refusal "NO_PERMISSION" |}
  /\ outcome (cancelReservation Sample.lib (Sample.refusing "NO_PERMISSION")
                Sample.env Sample.visitor)
     = inr {| status := 403; payload := Sample.refusal "NO_PERMISSION" |}
  /\ outcome (confirmReservation Sample.lib (Sample.refusing "NO_PERMISSION")
                Sample.env Sample.visitor)
     = inr {| status := 200; payload := Sample.refusal "NO_PERMISSION" |}.
Proof.
  destruct (outcome_classification_by_route
              Sample.lib (Sample.refusing "NO_PERMISSION") Sample.env
              Sample.visitor _ _ _
              (visitor_delegated _ true) eq_refl eq_refl)
    as ((_ & Hcreate) & (Hcancel & _) & Hconfirm).
  split; [exact (Hcreate (or_introl eq_refl)) |].
  split; [exact (Hcancel eq_refl) | exact (Hconfirm eq_refl)].
Defined.


(** C9, counterexample. A refusal of the backend carries a code and no
    snapshots: the mailer throws a TypeError on the first property it
    reads, not the unknown-code error. *)
Lemma refusal_throws_type_error :
  kind_of_code (get (Some (Sample.refusal "DUPLICATE_SAME_DATETIME")) "code")
  = None
  /\ outcome (sendReservationEmail Sample.lib
                (Sample.refusing "DUPLICATE_SAME_DATETIME") Sample.env
                (Some (Sample.refusal "DUPLICATE_SAME_DATETIME")))
     = inl (TypeError "Cannot read properties of undefined (reading 'code')")
  /\ outcome (sendReservationEmail Sample.lib
                (Sample.refusing "DUPLICATE_SAME_DATETIME") Sample.env
                (Some (Sample.refusal "DUPLICATE_SAME_DATETIME")))
     <> inl (Error "Unknown result.code: DUPLICATE_SAME_DATETIME").
Proof.
  repeat split; try reflexivity. discriminate.
Qed.

(** C9 (amended) on the sample deployment: with its snapshots in place,
    an ineligible outcome meets the unknown-code error. *)
Lemma ineligible_outcome_witness :
  kind_of_code (get (Some (Sample.result "DUPLICATE_SAME_DATETIME")) "code")
  = None
  /\ dispatches (trace (sendReservationEmail Sample.lib
                          (Sample.answering "DUPLICATE_SAME_DATETIME")
                          Sample.env
                          (Some (Sample.result "DUPLICATE_SAME_DATETIME")))) = []
  /\ outcome (sendReservationEmail Sample.lib
                (Sample.answering "DUPLICATE_SAME_DATETIME") Sample.env
                (Some (Sample.result "DUPLICATE_SAME_DATETIME")))
     = inl (Error "Unknown result.code: DUPLICATE_SAME_DATETIME").
Proof.
  split; [reflexivity |].
  destruct (ineligible_outcome_throws_without_dispatch
              Sample.lib (Sample.answering "DUPLICATE_SAME_DATETIME") Sample.env
              (Some (Sample.result "DUPLICATE_SAME_DATETIME")) eq_refl)
    as (Hnone & _ & Hunknown).
  split; [exact Hnone |].
  apply Hunknown; (reflexivity || discriminate).
Defined.

(** * Further properties *)

(** ** Strings *)

Section Strings.

Lemma reverse_involutive s : reverse (reverse s) = s.
Proof.
  unfold reverse.
  now rewrite list_ascii_of_string_of_list_ascii, rev_involutive,
    string_of_list_ascii_of_string.
Qed.

Lemma trimStart_idempotent s : trimStart (trimStart s) = trimStart s.
Proof.
  induction s as [| c s IH]; [reflexivity |].
  cbn. destruct (is_space c) eqn:Hc; [exact IH |].
  cbn. now rewrite Hc.
Qed.

Lemma trimStart_starts_clean s : starts_clean (trimStart s).
Proof.
  induction s as [| c s IH]; [exact I |].
  cbn. destruct (is_space c) eqn:Hc; [exact IH | exact Hc].
Qed.

Lemma trimStart_of_clean s : starts_clean s -> trimStart s = s.
Proof.
  destruct s as [| c s]; [reflexivity |].
  cbn. now intros ->.
Qed.

Lemma trimStart_keeps_last l c :
  is_space c = false ->
  exists l', trimStart (string_of_list_ascii (l ++ [c]))
             = string_of_list_ascii (l' ++ [c]).
Proof.
  intros Hc. induction l as [| d l IH]; cbn.
  - rewrite Hc. now exists [].
  - destruct (is_space d); [exact IH | now exists (d :: l)].
Qed.

Lemma trimEnd_starts_clean s : starts_clean s -> starts_clean (trimEnd s).
Proof.
  destruct s as [| c s]; [intros _; exact I |].
  cbn [starts_clean]. intros Hc.
  unfold trimEnd, reverse at 2. cbn [list_ascii_of_string rev].
  destruct (trimStart_keeps_last (rev (list_ascii_of_string s)) c Hc)
    as [l' ->].
  unfold reverse.
  rewrite list_ascii_of_string_of_list_ascii, rev_app_distr. exact Hc.
Qed.

Lemma trimEnd_idempotent s : trimEnd (trimEnd s) = trimEnd s.
Proof.
  unfold trimEnd. now rewrite reverse_involutive, trimStart_idempotent.
Qed.

Lemma trim_idempotent s : trim (trim s) = trim s.
Proof.
  unfold trim.
  rewrite (trimStart_of_clean (trimEnd (trimStart s))).
  - apply trimEnd_idempotent.
  - apply trimEnd_starts_clean, trimStart_starts_clean.
Qed.

Lemma clean_inv h :
  clean h = true ->
  exists first rest last tser,
    h = String first rest
    /\ rev (list_ascii_of_string h) = last :: tser
    /\ is_space first = false /\ is_space last = false
    /\ comma_free h = true.
Proof.
  unfold clean.
  destruct h as [| first rest]; [discriminate |].
  cbn [list_ascii_of_string].
  destruct (rev (first :: list_ascii_of_string rest)) as [| last tser] eqn:Hrev;
    [discriminate |].
  intros H.
  apply andb_true_iff in H. destruct H as [H Hcomma].
  apply andb_true_iff in H. destruct H as [Hfirst Hlast].
  apply negb_true_iff in Hfirst, Hlast.
  exists first, rest, last, tser. repeat split; assumption.
Qed.

Lemma trim_of_clean h : clean h = true -> trim h = h.
Proof.
  intros H.
  destruct (clean_inv h H) as (first & rest & last & tser & -> & Hrev & Hf & Hl & _).
  unfold trim. rewrite (trimStart_of_clean (String first rest) Hf).
  unfold trimEnd. unfold reverse at 2. rewrite Hrev.
  cbn [string_of_list_ascii trimStart]. rewrite Hl.
  change (String last (string_of_list_ascii tser))
    with (string_of_list_ascii (last :: tser)).
  rewrite <- Hrev.
  apply (reverse_involutive (String first rest)).
Qed.

Lemma trim_of_padded h : clean h = true -> trim (" " ++ h) = h.
Proof.
  intros H. rewrite <- (trim_of_clean h H) at 2. reflexivity.
Qed.

Lemma clean_truthy h : clean h = true -> str_truthy h = true.
Proof.
  intros H.
  destruct (clean_inv h H) as (first & rest & _ & _ & -> & _). reflexivity.
Qed.

Lemma clean_comma_free h : clean h = true -> comma_free h = true.
Proof.
  intros H.
  now destruct (clean_inv h H) as (? & ? & ? & ? & _ & _ & _ & _ & Hc).
Qed.

(** [split] cuts at the first comma after a piece that has none. *)
Lemma split_piece p rest cur :
  comma_free p = true ->
  split_comma_aux (p ++ String ","%char rest) cur
  = string_of_list_ascii (rev cur ++ list_ascii_of_string p)
    :: split_comma_aux rest [].
Proof.
  revert cur. induction p as [| c p IH]; intros cur Hp.
  - cbn. now rewrite app_nil_r.
  - unfold comma_free in Hp. cbn in Hp.
    apply andb_true_iff in Hp. destruct Hp as [Hc Hp].
    apply negb_true_iff in Hc.
    cbn [append split_comma_aux]. rewrite Hc.
    rewrite (IH (c :: cur) Hp). cbn [rev list_ascii_of_string].
    now rewrite <- app_assoc.
Qed.

Lemma split_last p cur :
  comma_free p = true ->
  split_comma_aux p cur
  = [string_of_list_ascii (rev cur ++ list_ascii_of_string p)].
Proof.
  revert cur. induction p as [| c p IH]; intros cur Hp.
  - cbn. now rewrite app_nil_r.
  - unfold comma_free in Hp. cbn in Hp.
    apply andb_true_iff in Hp. destruct Hp as [Hc Hp].
    apply negb_true_iff in Hc.
    cbn [split_comma_aux]. rewrite Hc.
    rewrite (IH (c :: cur) Hp). cbn [rev list_ascii_of_string].
    now rewrite <- app_assoc.
Qed.

Lemma append_assoc (a b c : string) : ((a ++ b) ++ c = a ++ (b ++ c))%string.
Proof.
  induction a as [| x a IH]; [reflexivity | cbn; now rewrite IH].
Qed.

Lemma concat_push a h hs :
  (a ++ String.concat ", " (h :: hs))%string = String.concat ", " ((a ++ h)%string :: hs).
Proof.
  destruct hs as [| h' hs]; [reflexivity |].
  cbn [String.concat]. now rewrite append_assoc.
Qed.

Lemma comma_free_padded h : comma_free h = true -> comma_free (" " ++ h) = true.
Proof.
  intros H. exact H.
Qed.

(** Splitting a list written with a comma and a space gives back its
    items, each but the first behind its space. *)
Lemma split_join p hs cur :
  comma_free p = true ->
  forallb comma_free hs = true ->
  split_comma_aux (String.concat ", " (p :: hs)) cur
  = string_of_list_ascii (rev cur ++ list_ascii_of_string p)
    :: map (fun h => (" " ++ h)%string) hs.
Proof.
  revert p cur. induction hs as [| h hs IH]; intros p cur Hp Hhs.
  - cbn [String.concat map]. now apply split_last.
  - cbn [forallb] in Hhs. apply andb_true_iff in Hhs. destruct Hhs as [Hh Hhs].
    change (String.concat ", " (p :: h :: hs))
      with (p ++ String ","%char (" " ++ String.concat ", " (h :: hs)))%string.
    rewrite (split_piece p _ cur Hp), concat_push.
    rewrite (IH (" " ++ h)%string [] (comma_free_padded h Hh) Hhs).
    cbn [rev app map]. now rewrite string_of_list_ascii_of_string.
Qed.

End Strings.

(** ** The configuration of the verifier *)

Section Configuration.

Variable env : Env.

(** X1. A list of hostnames written with commas and spaces in
    RECAPTCHA_ALLOWED_HOSTNAMES is read back as it was written: for
    hostnames that are not empty and have no comma and no white space at
    their ends, [RECAPTCHA_ALLOWED_HOSTNAMES] is the list itself.  The
    empty list may also be written by leaving the variable unset. *)
Theorem allowed_hostnames_read_back hs :
  forallb clean hs = true ->
  env_RECAPTCHA_ALLOWED_HOSTNAMES env = Some (String.concat ", " hs)
  \/ (hs = [] /\ env_RECAPTCHA_ALLOWED_HOSTNAMES env = None) ->
  RECAPTCHA_ALLOWED_HOSTNAMES env = hs.
Proof.
  intros Hclean Henv.
  unfold RECAPTCHA_ALLOWED_HOSTNAMES.
  destruct hs as [| h hs].
  { destruct Henv as [-> | [_ ->]]; reflexivity. }
  destruct Henv as [Henv | [Habsurd _]]; [| discriminate].
  rewrite Henv.
  assert (Htruthy : forallb str_truthy (h :: hs) = true).
  { apply forallb_forall. intros x Hx. apply clean_truthy.
    now apply (proj1 (forallb_forall clean (h :: hs)) Hclean). }
  assert (Hjoined : or_empty (Some (String.concat ", " (h :: hs)))
                    = String.concat ", " (h :: hs)).
  { unfold or_empty, or_str. cbn [opt_truthy].
    destruct (str_truthy (String.concat ", " (h :: hs))) eqn:Hs; [reflexivity |].
    symmetry. now apply str_truthy_false. }
  rewrite Hjoined.
  cbn [forallb] in Hclean. apply andb_true_iff in Hclean.
  destruct Hclean as [Hh Hhs].
  unfold split_comma.
  rewrite split_join.
  2: now apply clean_comma_free.
  2: { apply forallb_forall. intros x Hx. apply clean_comma_free.
       now apply (proj1 (forallb_forall clean hs) Hhs). }
  cbn [rev app map filter]. rewrite string_of_list_ascii_of_string.
  rewrite (trim_of_clean h Hh).
  cbn [forallb] in Htruthy. apply andb_true_iff in Htruthy.
  destruct Htruthy as [Hth Hths]. rewrite Hth. f_equal.
  clear Hth Hh Henv Hjoined h.
  induction hs as [| x hs IH]; [reflexivity |].
  cbn [forallb] in Hhs, Hths.
  apply andb_true_iff in Hhs. destruct Hhs as [Hx Hhs].
  apply andb_true_iff in Hths. destruct Hths as [Htx Hths].
  cbn [map filter]. rewrite (trim_of_padded x Hx), Htx. f_equal.
  now apply IH.
Qed.

End Configuration.

(** ** More on the risk verifier *)

Section VerifierAnswers.

Variable lib : Lib.
Variable world : World.
Variable env : Env.

Lemma maybe_some s tok : maybe s = Some tok <-> s = Some tok /\ str_truthy tok = true.
Proof.
  unfold maybe. destruct s as [x |]; cbn.
  - destruct (str_truthy x) eqn:Hx; split.
    + intros [= ->]. now split.
    + now intros [-> _].
    + discriminate.
    + intros [[= ->] H]. congruence.
  - split; [discriminate | now intros [? _]].
Qed.

Lemma maybe_truthy s : opt_truthy s = true -> exists tok, maybe s = Some tok.
Proof.
  intros H. unfold maybe. rewrite H. destruct s; [eauto | discriminate].
Qed.

Lemma maybe_falsy s : opt_truthy s = false -> maybe s = None.
Proof.
  unfold maybe. now intros ->.
Qed.

(** X2. The verifier contacts the scoring service exactly when a secret
    is configured and the token is not empty.  Without a secret it
    answers [secret_missing], whatever the token; with a secret and no
    token it answers [token_missing]; in both cases nothing leaves the
    process, so neither the secret nor the token is ever sent alone. *)
Theorem verifier_contacts_service_iff token opts :
  (round_trips (trace (verifyRecaptchaV3 lib world env token opts)) <> []
   <-> str_truthy (RECAPTCHA_SECRET env) = true /\ opt_truthy token = true)
  /\ (str_truthy (RECAPTCHA_SECRET env) = false ->
      verifyRecaptchaV3 lib world env token opts
      = ([], inr (VFail [JStr "secret_missing"] nothing_seen)))
  /\ (str_truthy (RECAPTCHA_SECRET env) = true ->
      opt_truthy token = false ->
      verifyRecaptchaV3 lib world env token opts
      = ([], inr (VFail [JStr "token_missing"] nothing_seen))).
Proof.
  assert (Hsecretless :
            str_truthy (RECAPTCHA_SECRET env) = false ->
            verifyRecaptchaV3 lib world env token opts
            = ([], inr (VFail [JStr "secret_missing"] nothing_seen))).
  { intros H. unfold verifyRecaptchaV3. now rewrite H. }
  assert (Htokenless :
            str_truthy (RECAPTCHA_SECRET env) = true ->
            opt_truthy token = false ->
            verifyRecaptchaV3 lib world env token opts
            = ([], inr (VFail [JStr "token_missing"] nothing_seen))).
  { intros H1 H2. unfold verifyRecaptchaV3.
    now rewrite H1, (maybe_falsy token H2). }
  split; [| split; assumption].
  destruct (str_truthy (RECAPTCHA_SECRET env)) eqn:Hsecret.
  - destruct (opt_truthy token) eqn:Htoken.
    + destruct (maybe_truthy token Htoken) as [tok Htok].
      rewrite (verify_trace lib world env token tok opts Hsecret Htok).
      rewrite fetch_under_timer_trace.
      split; [now intros _ | discriminate].
    + rewrite (Htokenless eq_refl eq_refl).
      split; [intros H; now contradiction H | intros [_ H]; discriminate].
  - rewrite (Hsecretless eq_refl).
    split; [intros H; now contradiction H | intros [H _]; discriminate].
Qed.

(** Each check that fails gives at least one reason. *)
Lemma check_reasons_not_empty opts r i reasons :
  nth_error (checks_in_order lib env opts r) i = Some (Some reasons) ->
  reasons <> [].
Proof.
  intros Hi.
  destruct (Nat.eq_dec i 1) as [-> | Hne].
  - destruct r as [parsed | name]; cbn in Hi; [| discriminate].
    unfold check_upstream in Hi.
    destruct (truthy _); [discriminate |].
    destruct (as_array _); injection Hi as <-; discriminate.
  - destruct (single_reason_checks lib env opts r i reasons Hi Hne) as [c ->].
    discriminate.
Qed.

(** The verifier always answers, and when the call was made its answer
    is the one of [verify_after_transport]. *)
Lemma verify_cases token opts :
  (exists reason,
      outcome (verifyRecaptchaV3 lib world env token opts)
      = inr (VFail [JStr reason] nothing_seen)
      /\ trace (verifyRecaptchaV3 lib world env token opts) = [])
  \/ (exists tok r v,
        str_truthy (RECAPTCHA_SECRET env) = true
        /\ maybe token = Some tok
        /\ outcome (fetch_under_timer world (siteverify_body env tok opts)
                      (budget opts)) = inr r
        /\ outcome (verifyRecaptchaV3 lib world env token opts) = inr v
        /\ reasons_of v = first_failure (checks_in_order lib env opts r)
        /\ seen_of v = carried r).
Proof.
  destruct (str_truthy (RECAPTCHA_SECRET env)) eqn:Hsecret.
  - destruct (maybe token) as [tok |] eqn:Htok.
    + right.
      destruct (verify_after_transport lib world env token tok opts _
                  Hsecret Htok (fetch_under_timer_settles world _ _))
        as (v & Hv & Hreasons & Hseen).
      exists tok. eexists. exists v.
      repeat split; try eassumption. apply fetch_under_timer_settles.
    + left. exists "token_missing".
      unfold verifyRecaptchaV3. rewrite Hsecret, Htok. now split.
  - left. exists "secret_missing".
    unfold verifyRecaptchaV3. rewrite Hsecret. now split.
Qed.

(** X3. A rejection always says why: whatever the token, the options,
    the configuration and the network, a verification that is not ok
    carries at least one reason code. *)
Theorem rejection_carries_a_reason token opts reasons seen :
  outcome (verifyRecaptchaV3 lib world env token opts)
  = inr (VFail reasons seen) ->
  reasons <> [].
Proof.
  intros Hv.
  destruct (verify_cases token opts)
    as [(reason & Hr & _) | (tok & r & v & _ & _ & _ & Hv' & Hreasons & _)].
  - rewrite Hr in Hv. injection Hv as <- _. discriminate.
  - rewrite Hv' in Hv. injection Hv as ->. cbn [reasons_of] in Hreasons.
    symmetry in Hreasons.
    destruct (first_failure_found _ _ Hreasons) as (i & Hi & _).
    exact (check_reasons_not_empty opts r i reasons Hi).
Qed.

(** X4. Whatever the verdict, the answer carries exactly what the
    upstream supplied: the score when it sent a number, the
    action and the hostname when it sent a string that is not empty;
    and nothing when there was no response to read. *)
Theorem answer_carries_what_upstream_supplied token opts v :
  outcome (verifyRecaptchaV3 lib world env token opts) = inr v ->
  (forall tok parsed,
      str_truthy (RECAPTCHA_SECRET env) = true ->
      maybe token = Some tok ->
      outcome (fetch_under_timer world (siteverify_body env tok opts)
                 (budget opts)) = inr (Resolves parsed) ->
      score (seen_of v) = as_number (get (Some parsed) "score")
      /\ (forall a, action (seen_of v) = Some a
                    <-> get (Some parsed) "action" = Some (JStr a) /\ a <> "")
      /\ (forall h, hostname (seen_of v) = Some h
                    <-> get (Some parsed) "hostname" = Some (JStr h) /\ h <> ""))
  /\ ((forall tok parsed,
         maybe token = Some tok ->
         outcome (fetch_under_timer world (siteverify_body env tok opts)
                    (budget opts)) <> inr (Resolves parsed)) ->
      seen_of v = nothing_seen).
Proof.
  intros Hv.
  assert (Hkeep : forall (field : option json) (x : string),
             maybe (as_string field) = Some x
             <-> field = Some (JStr x) /\ x <> "").
  { intros field x. rewrite maybe_some. unfold as_string, str_truthy.
    destruct field as [[| | | y | |] |]; split;
      try (intros [H _]; discriminate).
    - intros [[= ->] H]. split; [reflexivity |].
      intros ->. discriminate.
    - intros [[= ->] H]. split; [reflexivity |].
      destruct (String.eqb x "") eqn:Hx; [| reflexivity].
      apply String.eqb_eq in Hx. contradiction. }
  split.
  - intros tok parsed Hsecret Htok Hr.
    destruct (verify_after_transport lib world env token tok opts _
                Hsecret Htok Hr) as (v' & Hv' & _ & Hseen).
    rewrite Hv' in Hv. injection Hv as ->. rewrite Hseen. cbn [carried score action hostname].
    split; [reflexivity |]. split; intros x; apply Hkeep.
  - intros Hnone.
    destruct (verify_cases token opts)
      as [(reason & Hr & _) | (tok & r & v' & _ & Htok & Hr & Hv' & _ & Hseen)].
    + rewrite Hr in Hv. now injection Hv as <-.
    + rewrite Hv' in Hv. injection Hv as ->. rewrite Hseen.
      destruct r as [parsed | name]; [| reflexivity].
      now contradiction (Hnone tok parsed Htok).
Qed.

(** X5. An accepted verification is sound: a secret is configured, the
    token is not empty, the response came before the timer, the upstream
    said [success], the score it sent, if any, is not below the minimum,
    the action it sent is the expected one when one is expected, and the
    hostname it sent, if any, is in the allow-list when the list is not
    empty. *)
Theorem acceptance_is_sound token opts seen :
  outcome (verifyRecaptchaV3 lib world env token opts) = inr (VOk seen) ->
  str_truthy (RECAPTCHA_SECRET env) = true
  /\ exists tok parsed,
       maybe token = Some tok
       /\ timer_first (fetch world siteverify (siteverify_body env tok opts))
            (setTimeout_delay (budget opts)) = false
       /\ settle (fetch world siteverify (siteverify_body env tok opts))
          = Resolves parsed
       /\ truthy (get (Some parsed) "success") = true
       /\ (forall s, get (Some parsed) "score" = Some (JNum s) ->
                     lt s (RECAPTCHA_MIN_SCORE lib env) = false)
       /\ (expected_action env opts <> "" ->
           get (Some parsed) "action" = Some (JStr (expected_action env opts)))
       /\ (forall h, RECAPTCHA_ALLOWED_HOSTNAMES env <> [] ->
                     get (Some parsed) "hostname" = Some (JStr h) ->
                     h <> "" ->
                     includes (RECAPTCHA_ALLOWED_HOSTNAMES env) h = true)
       /\ seen = carried (Resolves parsed).
Proof.
  intros Hv.
  destruct (verify_cases token opts)
    as [(reason & Hr & _) | (tok & r & v & Hsecret & Htok & Hr & Hv' & Hreasons & Hseen)].
  { rewrite Hr in Hv. discriminate. }
  rewrite Hv' in Hv. injection Hv as ->.
  cbn [reasons_of seen_of] in Hreasons, Hseen.
  split; [exact Hsecret |].
  rewrite fetch_under_timer_settles in Hr. injection Hr as Hr.
  destruct r as [parsed | name].
  2: { cbn in Hreasons. destruct name as [n |];
       [destruct (String.eqb n "AbortError") |]; discriminate. }
  destruct (timer_first _ _) eqn:Hrace; [discriminate |].
  exists tok, parsed.
  split; [exact Htok |]. split; [exact Hrace |]. split; [exact Hr |].
  cbn [checks_in_order check_transport first_failure] in Hreasons.
  unfold check_upstream in Hreasons.
  destruct (truthy (get (Some parsed) "success")).
  2: { destruct (as_array _); discriminate. }
  split; [reflexivity |].
  destruct (check_action env opts parsed) eqn:Haction; [discriminate |].
  destruct (check_score lib env parsed) eqn:Hscore; [discriminate |].
  destruct (check_hostname env parsed) eqn:Hhost; [discriminate |].
  split; [| split; [| split; [| exact Hseen]]].
  - intros sc Hsc. unfold check_score in Hscore. rewrite Hsc in Hscore.
    now destruct (lt sc _).
  - intros Hexp. unfold check_action in Haction.
    destruct (String.eqb (expected_action env opts) "") eqn:He.
    { apply String.eqb_eq in He. contradiction. }
    destruct (get (Some parsed) "action") as [[| | | a | |] |];
      try discriminate.
    destruct (String.eqb a (expected_action env opts)) eqn:Ha;
      [| discriminate].
    apply String.eqb_eq in Ha. now subst.
  - intros h Hlist Hh Hne. unfold check_hostname in Hhost.
    destruct (RECAPTCHA_ALLOWED_HOSTNAMES env) as [| h0 allowed];
      [now contradiction Hlist |].
    rewrite Hh in Hhost.
    destruct (String.eqb h "") eqn:He.
    { apply String.eqb_eq in He. contradiction. }
    now destruct (includes (h0 :: allowed) h).
Qed.

End VerifierAnswers.

(** ** The earlier version of the helper *)

Section EarlierVerifier.

Variable lib : Lib.
Variable world : World.
Variable env : Env.

(** The expected action of the earlier version. *)
Lemma earlier_expected_unfold opts :
  trim (or_empty
          (or_str (or_str (expectedAction opts)
                          (Some (RECAPTCHA_EXPECTED_ACTION env)))
                  (Some "")))
  = trim (match maybe (expectedAction opts) with
          | Some caller => caller
          | None => RECAPTCHA_EXPECTED_ACTION env
          end).
Proof.
  unfold or_empty, or_str, maybe.
  destruct (expectedAction opts) as [caller |]; cbn [opt_truthy].
  - destruct (str_truthy caller) eqn:Hcaller; cbn [opt_truthy];
      rewrite ?Hcaller; cbn [opt_truthy]; rewrite ?Hcaller; [reflexivity |].
    destruct (str_truthy (RECAPTCHA_EXPECTED_ACTION env)) eqn:Henv;
      cbn [opt_truthy]; rewrite ?Henv; [reflexivity |].
    now rewrite (str_truthy_false _ Henv).
  - destruct (str_truthy (RECAPTCHA_EXPECTED_ACTION env)) eqn:Henv;
      cbn [opt_truthy]; rewrite ?Henv; [reflexivity |].
    now rewrite (str_truthy_false _ Henv).
Qed.

(** What the earlier version answers to a response, when its expected
    action is the one of the current version. *)
Lemma earlier_after_response token tok opts t parsed :
  str_truthy (RECAPTCHA_SECRET env) = true ->
  maybe token = Some tok ->
  arrives (fetch world siteverify (siteverify_body env tok opts)) = Some t ->
  settle (fetch world siteverify (siteverify_body env tok opts))
  = Resolves parsed ->
  trim (match maybe (expectedAction opts) with
        | Some caller => caller
        | None => RECAPTCHA_EXPECTED_ACTION env
        end) = expected_action env opts ->
  exists v,
    verifyRecaptchaV3_earlier lib world env token opts
    = ([EvFetch siteverify (siteverify_body env tok opts); EvAwaited t], Some v)
    /\ reasons_of v
       = first_failure (checks_in_order lib env opts (Resolves parsed))
    /\ seen_of v = carried (Resolves parsed).
Proof.
  intros Hsecret Htok Harrives Hsettle Hexpected.
  unfold verifyRecaptchaV3_earlier, fetch_unbounded.
  rewrite Hsecret, Htok, Harrives, Hsettle. cbn [negb].
  rewrite earlier_expected_unfold, Hexpected.
  cbn [checks_in_order check_transport first_failure carried].
  unfold check_upstream, check_action, check_score, check_hostname.
  generalize (expected_action env opts) as expected. intros expected.
  unfold str_truthy, maybe, opt_truthy, str_truthy, as_string, as_number.
  destruct (truthy (get (Some parsed) "success")); cbn [negb].
  2: { destruct (as_array _); eexists; repeat split; reflexivity. }
  destruct (String.eqb expected ""); cbn [negb andb];
    destruct (get (Some parsed) "action") as [[| | | a | |] |];
    try destruct (String.eqb a expected); cbn [negb andb];
    try (eexists; repeat split; reflexivity);
    destruct (get (Some parsed) "score") as [[| | s | | |] |];
    try destruct (lt s (RECAPTCHA_MIN_SCORE lib env));
    try (eexists; repeat split; reflexivity);
    destruct (RECAPTCHA_ALLOWED_HOSTNAMES env) as [| h0 allowed] eqn:Hallowed;
    cbn [length Nat.eqb negb andb];
    destruct (get (Some parsed) "hostname") as [[| | | h | |] |];
    try destruct (String.eqb h ""); cbn [negb andb];
    try destruct (includes (h0 :: allowed) h); cbn [negb];
    eexists; repeat split; reflexivity.
Qed.

Lemma maybe_idempotent s : maybe (maybe s) = maybe s.
Proof.
  unfold maybe. destruct (opt_truthy s) eqn:Hs; [now rewrite Hs | reflexivity].
Qed.

(** Called with the options of the create route, both versions expect
    the same action. *)
Lemma route_expected_action req :
  trim (match maybe (expectedAction (verify_options env req)) with
        | Some caller => caller
        | None => RECAPTCHA_EXPECTED_ACTION env
        end)
  = expected_action env (verify_options env req).
Proof.
  unfold expected_action, verify_options, RECAPTCHA_EXPECTED_ACTION.
  cbn [expectedAction].
  unfold or_empty.
  destruct (opt_truthy (env_RECAPTCHA_EXPECTED_ACTION env)) eqn:Henv.
  - destruct (env_RECAPTCHA_EXPECTED_ACTION env) as [raw |]; [| discriminate].
    unfold or_str. rewrite Henv.
    unfold maybe. rewrite Henv. rewrite Henv.
    destruct (str_truthy (trim raw)) eqn:Htrimmed.
    + now rewrite trim_idempotent.
    + reflexivity.
  - unfold or_str. rewrite Henv. cbn [opt_truthy].
    rewrite maybe_idempotent.
    destruct (maybe (Body.recaptcha_action (body req))); reflexivity.
Qed.

(** X6. The earlier version of the helper has no time budget and reads
    the caller's expected action first.  When the scoring service never
    answers, it never answers either; whatever the exchange throws, an
    abort included, it answers [verify_request_failed]; and when the
    caller gives an expected action, a response with another action is
    rejected with [unexpected_action] whatever the system-wide action
    is. *)
Theorem earlier_helper_unbounded_caller_first token tok opts :
  str_truthy (RECAPTCHA_SECRET env) = true ->
  maybe token = Some tok ->
  let wire := fetch world siteverify (siteverify_body env tok opts) in
  let call := EvFetch siteverify (siteverify_body env tok opts) in
  (arrives wire = None ->
   verifyRecaptchaV3_earlier lib world env token opts = ([call], None))
  /\ (forall t name,
        arrives wire = Some t -> settle wire = Rejects name ->
        verifyRecaptchaV3_earlier lib world env token opts
        = ([call; EvAwaited t],
           Some (VFail [JStr "verify_request_failed"] nothing_seen)))
  /\ (forall t parsed caller,
        arrives wire = Some t -> settle wire = Resolves parsed ->
        truthy (get (Some parsed) "success") = true ->
        maybe (expectedAction opts) = Some caller ->
        trim caller <> "" ->
        as_string (get (Some parsed) "action") <> Some (trim caller) ->
        verifyRecaptchaV3_earlier lib world env token opts
        = ([call; EvAwaited t],
           Some (VFail [JStr "unexpected_action"] (carried (Resolves parsed))))).
Proof.
  intros Hsecret Htok wire call.
  unfold verifyRecaptchaV3_earlier, fetch_unbounded.
  rewrite Hsecret, Htok. cbn [negb]. fold wire.
  split; [| split].
  - now intros ->.
  - now intros t name -> ->.
  - intros t parsed caller -> -> Hsuccess Hcaller Htrim Haction.
    rewrite Hsuccess, earlier_expected_unfold, Hcaller. cbn [negb].
    assert (Hmismatch :
              str_truthy (trim caller)
              && negb match as_string (get (Some parsed) "action") with
                      | Some a => String.eqb a (trim caller)
                      | None => false
                      end = true).
    { apply andb_true_iff. split.
      - unfold str_truthy.
        destruct (String.eqb (trim caller) "") eqn:He; [| reflexivity].
        apply String.eqb_eq in He. contradiction.
      - destruct (as_string (get (Some parsed) "action")) as [a |];
          [| reflexivity].
        destruct (String.eqb a (trim caller)) eqn:Ha; [| reflexivity].
        apply String.eqb_eq in Ha. subst a. now contradiction Haction. }
    now rewrite Hmismatch.
Qed.

(** X7. Called as the create route calls it, the earlier version of the
    helper answers as the current one, after the same round trip,
    whenever the exchange ends with a response before the 10 000 ms of
    the timer. *)
Theorem versions_agree_at_route req tok t parsed :
  str_truthy (RECAPTCHA_SECRET env) = true ->
  maybe (Body.recaptcha (body req)) = Some tok ->
  arrives (fetch world siteverify
             (siteverify_body env tok (verify_options env req))) = Some t ->
  (t < 10000)%N ->
  settle (fetch world siteverify
            (siteverify_body env tok (verify_options env req)))
  = Resolves parsed ->
  exists v,
    verification lib world env req
    = ([EvFetch siteverify (siteverify_body env tok (verify_options env req));
        EvAwaited t], inr v)
    /\ verifyRecaptchaV3_earlier lib world env (Body.recaptcha (body req))
         (verify_options env req)
       = ([EvFetch siteverify (siteverify_body env tok (verify_options env req));
           EvAwaited t], Some v).
Proof.
  intros Hsecret Htok Harrives Hbefore Hsettle.
  set (opts := verify_options env req) in *.
  set (wire := fetch world siteverify (siteverify_body env tok opts)) in *.
  assert (Hrace : timer_first wire (setTimeout_delay (budget opts)) = false).
  { unfold timer_first. rewrite Harrives.
    change (setTimeout_delay (budget opts)) with 10000%N.
    apply orb_false_iff. split.
    - apply N.ltb_ge. lia.
    - apply andb_false_iff. left. apply N.eqb_neq. lia. }
  assert (Hr : outcome (fetch_under_timer world (siteverify_body env tok opts)
                          (budget opts)) = inr (Resolves parsed)).
  { rewrite fetch_under_timer_settles. fold wire. now rewrite Hrace, Hsettle. }
  destruct (verify_after_transport lib world env _ tok opts _ Hsecret Htok Hr)
    as (v & Hv & Hreasons & Hseen).
  destruct (earlier_after_response _ tok opts t parsed Hsecret Htok
              Harrives Hsettle (route_expected_action req))
    as (v' & Hv' & Hreasons' & Hseen').
  exists v. split.
  - unfold verification. fold opts.
    rewrite (surjective_pairing (verifyRecaptchaV3 lib world env _ opts)).
    change (fst ?c) with (trace c). change (snd ?c) with (outcome c).
    rewrite Hv, (verify_trace lib world env _ tok opts Hsecret Htok).
    rewrite fetch_under_timer_trace. fold wire.
    now rewrite Hrace, Harrives.
  - rewrite Hv'. do 2 f_equal. apply verdict_eq; congruence.
Qed.

End EarlierVerifier.

(** ** More on the mailer *)

Section MailerMessages.

Variable lib : Lib.
Variable world : World.
Variable env : Env.

Lemma find_first {A} (f : A -> bool) l p :
  find f l = Some p
  <-> exists before after,
        l = before ++ p :: after /\ f p = true
        /\ forall q, In q before -> f q = false.
Proof.
  induction l as [| x l IH]; cbn.
  - split; [discriminate |].
    intros (before & after & H & _). now destruct before.
  - destruct (f x) eqn:Hx.
    + split.
      * intros [= ->]. exists [], l. now repeat split.
      * intros ([| y before] & after & Hl & Hp & Hbefore).
        -- now injection Hl as ->.
        -- injection Hl as -> _.
           rewrite (Hbefore y (or_introl eq_refl)) in Hx. discriminate.
    + rewrite IH. split.
      * intros (before & after & -> & Hp & Hbefore).
        exists (x :: before), after. repeat split; [exact Hp |].
        intros q [<- | Hq]; [exact Hx | now apply Hbefore].
      * intros ([| y before] & after & Hl & Hp & Hbefore).
        -- injection Hl as -> _. congruence.
        -- injection Hl as -> ->.
           exists before, after. repeat split; [exact Hp |].
           intros q Hq. apply Hbefore. now right.
Qed.

(** X8. A template is taken from the first place where it exists, in
    the order [cwd/email_templates], [cwd/src/email_templates],
    [__dirname/email_templates]; the lookup throws exactly when it
    exists in none of the three, and reaches nothing but the file
    system. *)
Theorem template_taken_from_first_place file :
  trace (resolveTemplatePath lib world file) = []
  /\ (forall p,
        outcome (resolveTemplatePath lib world file) = inr p
        <-> exists before after,
              template_candidates lib world file = before ++ p :: after
              /\ existsSync world p = true
              /\ forall q, In q before -> existsSync world q = false)
  /\ ((exists e, outcome (resolveTemplatePath lib world file) = inl e)
      <-> forall q, In q (template_candidates lib world file) ->
                    existsSync world q = false).
Proof.
  unfold resolveTemplatePath.
  fold (template_candidates lib world file).
  split; [now destruct (find _ _) |].
  split.
  - intros p. rewrite <- find_first.
    destruct (find _ _); cbn; split; congruence.
  - destruct (find (existsSync world) (template_candidates lib world file))
      as [p |] eqn:Hfind; cbn.
    + split; [intros [e He]; discriminate |].
      intros Hnone. apply find_some in Hfind. destruct Hfind as [Hin Hp].
      rewrite (Hnone p Hin) in Hp. discriminate.
    + split; [| eauto].
      intros _ q Hq. exact (find_none _ _ Hfind q Hq).
Qed.

(** A message dispatched by [c ;; k], when [c] dispatches nothing, is
    dispatched by [k] on what [c] returned. *)
Lemma dispatched_after {A B} (c : IO A) (k : A -> IO B) m :
  dispatches (trace c) = [] ->
  In m (dispatches (trace (bind c k))) ->
  exists a, outcome c = inr a /\ In m (dispatches (trace (k a))).
Proof.
  intros Hc. rewrite trace_bind, dispatches_app, Hc. cbn [app].
  destruct (outcome c) as [e | a]; [intros [] | eauto].
Qed.

Lemma prop_returns o k v : outcome (prop o k) = inr v -> v = get o k.
Proof.
  destruct o as [[| | | | |] |]; cbn; congruence.
Qed.

Lemma render_returns file vars out :
  outcome (renderTemplate world file vars) = inr out ->
  exists tpl, readFileSync world file = Some tpl
              /\ Handlebars world tpl vars = Some out.
Proof.
  unfold renderTemplate.
  destruct (readFileSync world file) as [tpl |]; [| discriminate].
  destruct (Handlebars world tpl vars) as [o |] eqn:Hh; [| discriminate].
  cbn. intros [= ->]. eauto.
Qed.

(** The templates chosen are the two of the kind of the code. *)
Lemma choose_templates_returns code vars existing h t hv tv :
  outcome (choose_templates lib world code vars existing) = inr (h, t, hv, tv) ->
  exists k,
    kind_of_code code = Some k
    /\ outcome (resolveTemplatePath lib world (template_of k ++ ".html")) = inr h
    /\ outcome (resolveTemplatePath lib world (template_of k ++ ".txt")) = inr t.
Proof.
  unfold choose_templates, kind_of_code.
  destruct (is_str code "CREATED_ACTIVE") eqn:Hactive.
  { rewrite !outcome_bind.
    destruct (outcome (resolveTemplatePath lib world "created_active.html"))
      as [e | h'] eqn:Hh; [discriminate |].
    rewrite outcome_bind.
    destruct (outcome (resolveTemplatePath lib world "created_active.txt"))
      as [e | t'] eqn:Ht; [discriminate |].
    cbn. intros [= -> -> _ _]. exists ActiveConfirmation. now repeat split. }
  destruct (is_str code "CREATED_CANCELED") eqn:Hcanceled.
  { rewrite !outcome_bind.
    destruct (outcome (resolveTemplatePath lib world "created_canceled.html"))
      as [e | h'] eqn:Hh; [discriminate |].
    rewrite outcome_bind.
    destruct (outcome (resolveTemplatePath lib world "created_canceled.txt"))
      as [e | t'] eqn:Ht; [discriminate |].
    cbn. intros [= -> -> _ _]. exists Cancellation.
    rewrite (is_str_other _ _ "CREATED_PENDING" Hcanceled eq_refl).
    now repeat split. }
  destruct (is_str code "CREATED_PENDING") eqn:Hpending; [| discriminate].
  rewrite !outcome_bind.
  destruct (outcome (resolveTemplatePath lib world "created_pending.html"))
    as [e | h'] eqn:Hh; [discriminate |].
  rewrite outcome_bind.
  destruct (outcome (resolveTemplatePath lib world "created_pending.txt"))
    as [e | t'] eqn:Ht; [discriminate |].
  cbn. intros [= -> -> _ _]. exists PendingWithConflict. now repeat split.
Qed.

Lemma choose_subject_of_kind code k public_code :
  kind_of_code code = Some k ->
  choose_subject lib code public_code
  = Some (subject_of k ++ js_String lib public_code)%string.
Proof.
  intros Hk. apply kind_of_code_inv in Hk. subst code.
  now destruct k.
Qed.

(** X9. Every message the mailer hands to the SMTP server is of the kind
    of the outcome code, which is then one of the three eligible ones;
    it is addressed to the e-mail of the person of the outcome, with
    replies to the ticket office; and it carries the QR code of the
    reservation id for an active confirmation and no attachment
    otherwise. *)
Theorem sent_message_is_of_its_kind payload m :
  In m (dispatches (trace (sendReservationEmail lib world env payload))) ->
  exists k png,
    kind_of_code (get payload "code") = Some k
    /\ of_kind lib world k m
    /\ to m = get (get payload "person") "email"
    /\ replyTo m = "tickets@lappasproductions.gr"
    /\ QRCode_toBuffer world (get (get payload "reservation") "id") = Some png
    /\ attachments m
       = match k with
         | ActiveConfirmation =>
             [ {| filename := "qr.png"; content := png; cid := "qr-code" |} ]
         | _ => []
         end.
Proof.
  unfold sendReservationEmail.
  destruct (negb (truthy payload)); [intros [] |].
  intros Hm.
  repeat (apply dispatched_after in Hm; [| apply prop_quiet];
          let v := fresh "v" in
          let Hv := fresh "Hv" in
          destruct Hm as (v & Hv & Hm); apply prop_returns in Hv; subst v).
  apply dispatched_after in Hm.
  2: { unfold makeQrPng. now destruct (QRCode_toBuffer world _). }
  destruct Hm as (png & Hpng & Hm).
  unfold makeQrPng in Hpng.
  destruct (QRCode_toBuffer world _) as [png' |] eqn:Hqr; [| discriminate].
  injection Hpng as ->.
  apply dispatched_after in Hm; [| reflexivity].
  destruct Hm as (_ & _ & Hm).
  apply dispatched_after in Hm; [| apply choose_templates_quiet].
  destruct Hm as ([[[h t] hv] tv] & Hchosen & Hm).
  apply choose_templates_returns in Hchosen.
  destruct Hchosen as (k & Hk & Hh & Ht).
  apply dispatched_after in Hm; [| apply render_quiet].
  destruct Hm as (hout & Hhtml & Hm).
  apply dispatched_after in Hm; [| apply render_quiet].
  destruct Hm as (tout & Htext & Hm).
  apply render_returns in Hhtml, Htext.
  destruct Hhtml as (htpl & Hhread & Hhrender).
  destruct Htext as (ttpl & Htread & Htrender).
  rewrite bind_emit in Hm. cbn [trace fst dispatches flat_map app] in Hm.
  match type of Hm with
  | In m (?msg :: ?rest) =>
      assert (Hrest : rest = []) by (now destruct (sendMail world msg));
      rewrite Hrest in Hm
  end.
  destruct Hm as [Hsent | []]. subst m. clear Hrest.
  exists k, png.
  split; [exact Hk |]. split.
  { unfold of_kind, rendering_of. cbn [html text subject attachments].
    split; [eauto 8 |]. split; [eauto 8 |]. split.
    - rewrite (choose_subject_of_kind _ k _ Hk). eauto.
    - apply kind_of_code_inv in Hk. rewrite Hk.
      destruct k; cbn; split; intros H; congruence. }
  split; [reflexivity |]. split; [reflexivity |]. split; [reflexivity |].
  cbn [attachments]. apply kind_of_code_inv in Hk. rewrite Hk.
  now destruct k.
Qed.

End MailerMessages.

(** ** How a run of the mailer ends *)

Section MailerRuns.

Variable lib : Lib.
Variable world : World.
Variable env : Env.

(** A computation that reaches nothing outside either throws or
    returns. *)
Lemma silent_cases {A} (c : IO A) :
  trace c = [] -> (exists e, c = throw e) \/ (exists a, c = ret a).
Proof.
  destruct c as [t [e | a]]; cbn; intros ->; [left | right]; eexists;
    reflexivity.
Qed.

Lemma prop_silent o k : trace (prop o k) = [].
Proof.
  now destruct o as [[| | | | |] |].
Qed.

Lemma makeQrPng_silent data : trace (makeQrPng world data) = [].
Proof.
  unfold makeQrPng. now destruct (QRCode_toBuffer world data).
Qed.

Lemma resolve_silent file : trace (resolveTemplatePath lib world file) = [].
Proof.
  unfold resolveTemplatePath. now destruct (find _ _).
Qed.

Lemma render_silent file vars : trace (renderTemplate world file vars) = [].
Proof.
  unfold renderTemplate.
  destruct (readFileSync world file) as [tpl |]; [| reflexivity].
  now destruct (Handlebars world tpl vars).
Qed.

Lemma silent_bind {A B} (c : IO A) (k : A -> IO B) :
  trace c = [] -> (forall a, trace (k a) = []) -> trace (bind c k) = [].
Proof.
  intros Hc Hk. rewrite trace_bind, Hc.
  destruct (outcome c); [reflexivity | apply Hk].
Qed.

Lemma choose_templates_silent code vars existing :
  trace (choose_templates lib world code vars existing) = [].
Proof.
  unfold choose_templates.
  repeat match goal with
         | |- context [if is_str ?v ?s then _ else _] => destruct (is_str v s)
         end;
    try reflexivity;
    repeat (apply silent_bind; [apply resolve_silent | intros ?]);
    reflexivity.
Qed.

(** A run of the mailer ends in one of two ways: it throws before
    anything is handed to the SMTP server, having written at most its
    log line; or it hands over one message and ends as the SMTP server
    does. *)
Lemma mailer_cases payload :
  (exists e t,
      sendReservationEmail lib world env payload = (t, inl e)
      /\ (t = [] \/ t = [EvLog "FINE"]))
  \/ exists m,
       sendReservationEmail lib world env payload
       = ([EvLog "FINE"; EvSendMail m],
          if sendMail world m then inr tt
          else inl (Rejected "transporter.sendMail")).
Proof.
  unfold sendReservationEmail. cbv zeta.
  destruct (negb (truthy payload));
    [left; eexists _, _; split; [reflexivity | now left] |].
  repeat match goal with
         | |- context [bind (prop ?o ?k) _] =>
             destruct (silent_cases (prop o k) (prop_silent o k))
               as [[? ->] | [? ->]];
             [left; eexists _, _; split; [reflexivity | now left]
             | rewrite bind_ret]
         end.
  match goal with
  | |- context [bind (makeQrPng world ?d) _] =>
      destruct (silent_cases _ (makeQrPng_silent d)) as [[? ->] | [png ->]];
      [left; eexists _, _; split; [reflexivity | now left]
      | rewrite bind_ret]
  end.
  rewrite bind_emit.
  match goal with
  | |- context [bind (choose_templates lib world ?c ?v ?x) _] =>
      destruct (silent_cases _ (choose_templates_silent c v x))
        as [[? ->] | [[[[h t] hv] tv] ->]];
      [left; eexists _, _; split; [reflexivity | now right]
      | rewrite bind_ret]
  end.
  match goal with
  | |- context [bind (renderTemplate world h ?v) _] =>
      destruct (silent_cases _ (render_silent h v)) as [[? ->] | [hout ->]];
      [left; eexists _, _; split; [reflexivity | now right]
      | rewrite bind_ret]
  end.
  match goal with
  | |- context [bind (renderTemplate world t ?v) _] =>
      destruct (silent_cases _ (render_silent t v)) as [[? ->] | [tout ->]];
      [left; eexists _, _; split; [reflexivity | now right]
      | rewrite bind_ret]
  end.
  rewrite bind_emit. right.
  match goal with
  | |- context [EvSendMail ?m] =>
      exists m; destruct (sendMail world m); reflexivity
  end.
Qed.

(** X10. The mailer returns normally exactly when it handed one message
    to the SMTP server and the server accepted it; and whatever the
    payload, it reaches neither the backend nor the scoring service. *)
Theorem mailer_returns_iff_accepted payload :
  (outcome (sendReservationEmail lib world env payload) = inr tt
   <-> exists m,
         dispatches (trace (sendReservationEmail lib world env payload)) = [m]
         /\ sendMail world m = true)
  /\ queries (trace (sendReservationEmail lib world env payload)) = []
  /\ round_trips (trace (sendReservationEmail lib world env payload)) = [].
Proof.
  destruct (mailer_cases payload) as [(e & t & -> & Ht) | (m & ->)].
  - cbn [trace outcome fst snd].
    split; [| destruct Ht as [-> | ->]; split; reflexivity].
    split; [discriminate |].
    intros (m & Hm & _). destruct Ht as [-> | ->]; discriminate.
  - cbn [trace outcome fst snd dispatches queries round_trips flat_map app].
    split; [| split; reflexivity].
    split.
    + intros Hok. exists m. split; [reflexivity |].
      now destruct (sendMail world m).
    + intros (m' & [= <-] & ->). reflexivity.
Qed.

End MailerRuns.

(** ** The create route, case by case *)

Section CreateRoute.

Variable lib : Lib.
Variable world : World.
Variable env : Env.

Lemma round_trips_app t t' :
  round_trips (t ++ t') = round_trips t ++ round_trips t'.
Proof.
  apply flat_map_app.
Qed.

(** Validation and normalization leave no choice. *)
Lemma identity_unique req data p data' p' :
  identity_valid lib req data p -> identity_valid lib req data' p' ->
  data = data' /\ p = p'.
Proof.
  intros (Hparse & Hphone & _) (Hparse' & Hphone' & _).
  rewrite Hparse in Hparse'. injection Hparse' as <-.
  rewrite Hphone in Hphone'. injection Hphone' as <-.
  now split.
Qed.

(** What the reCAPTCHA block reaches. *)
Lemma step_trace req :
  trace (recaptcha_step lib world env req)
  = if token_supplied req then trace (verification lib world env req) else [].
Proof.
  destruct (token_supplied req) eqn:Htok.
  - destruct (verify_returns lib world env (Body.recaptcha (body req))
                (verify_options env req)) as [v Hv].
    now rewrite (step_verified lib world env req v Htok Hv).
  - now rewrite (step_skipped lib world env req Htok).
Qed.

(** One round trip when there is a secret and a token, none otherwise. *)
Lemma verification_round_trips req :
  round_trips (trace (verification lib world env req))
  = if str_truthy (RECAPTCHA_SECRET env) && token_supplied req
    then match maybe (Body.recaptcha (body req)) with
         | Some tok => [siteverify_body env tok (verify_options env req)]
         | None => []
         end
    else [].
Proof.
  unfold verification, token_supplied.
  destruct (str_truthy (RECAPTCHA_SECRET env)) eqn:Hsecret; cbn [andb].
  - destruct (opt_truthy (Body.recaptcha (body req))) eqn:Htoken.
    + destruct (maybe_truthy _ Htoken) as [tok Htok]. rewrite Htok.
      rewrite (verify_trace lib world env _ tok _ Hsecret Htok).
      rewrite fetch_under_timer_trace.
      now destruct (timer_first _ _).
    + rewrite verify_trace_early; [reflexivity |].
      right. now apply maybe_falsy.
  - rewrite verify_trace_early; [reflexivity | now left].
Qed.

(** What the response block reaches is what the mailer reaches. *)
Lemma respond_to_create_trace result :
  trace (respond_to_create lib world env result)
  = if is_str (get (Some result) "code") "CREATED_ACTIVE"
       || is_str (get (Some result) "code") "CREATED_PENDING"
    then trace (sendReservationEmail lib world env (Some result))
    else [].
Proof.
  unfold respond_to_create.
  destruct (_ || _); [apply trace_then_ret |].
  repeat match goal with
         | |- context [if ?c then _ else _] => destruct c
         end; reflexivity.
Qed.

Lemma respond_to_create_outcome result :
  outcome (respond_to_create lib world env result)
  = if is_str (get (Some result) "code") "CREATED_ACTIVE"
       || is_str (get (Some result) "code") "CREATED_PENDING"
    then match outcome (sendReservationEmail lib world env (Some result)) with
         | inl e => inl e
         | inr _ => inr {| status := 200; payload := result |}
         end
    else inr {| status :=
                  if is_str (get (Some result) "code") "DUPLICATE_SAME_DATETIME"
                  then 409
                  else if is_str (get (Some result) "code")
                            "PERFORMANCE_THEATER_NOT_FOUND"
                          || is_str (get (Some result) "code")
                               "PERFORMANCE_DATETIME_NOT_FOUND"
                  then 404 else 400;
                payload := result |}.
Proof.
  unfold respond_to_create.
  destruct (_ || _); [now rewrite outcome_bind |].
  repeat match goal with
         | |- context [if ?c then _ else _] => destruct c
         end; reflexivity.
Qed.

(** A request that passed validation and the reCAPTCHA block: one query
    with the canonical payload, then the response block on what the
    backend answered, or the server error when it threw. *)
Lemma create_valid req data p :
  identity_valid lib req data p ->
  risk_passed lib world env req ->
  let args := [SqlText (JSON_stringify lib (reservation_payload lib data p req))] in
  trace (createReservation lib world env req)
  = trace (recaptcha_step lib world env req)
    ++ EvQuery create_sql args
    :: match query world create_sql args with
       | QueryRows rows =>
           trace (respond_to_create lib world env (first_result rows))
       | QueryThrows => []
       end
  /\ outcome (createReservation lib world env req)
     = match query world create_sql args with
       | QueryRows rows =>
           match outcome (respond_to_create lib world env (first_result rows)) with
           | inl _ => inr (server_error "Αποτυχία δημιουργίας κράτησης")
           | inr response => inr response
           end
       | QueryThrows => inr (server_error "Αποτυχία δημιουργίας κράτησης")
       end.
Proof.
  intros (Hparse & Hphone & Hvalid) Hrisk args.
  assert (Hstep := step_passed lib world env req Hrisk).
  unfold createReservation.
  rewrite Hparse, Hphone, Hvalid. cbn [negb].
  rewrite trace_try_catch, outcome_try_catch.
  rewrite !trace_bind, !outcome_bind, Hstep.
  unfold pool_query. fold args.
  destruct (query world create_sql args) as [rows |].
  - rewrite bind_emit. cbn [trace outcome fst snd].
    rewrite !trace_bind, !outcome_bind. cbn [trace outcome fst snd ret app].
    split; [| reflexivity].
    destruct (outcome (respond_to_create lib world env (first_result rows)));
      now rewrite app_nil_r.
  - rewrite bind_emit. cbn [trace outcome fst snd throw ret app].
    split; [| reflexivity].
    now rewrite !app_nil_r.
Qed.

(** The three ways the handler goes: the request is invalid and nothing
    leaves the process; the verifier rejects its token and only the
    verification was made; or it passed both and the backend is called. *)
Lemma create_cases req :
  (exists response,
      createReservation lib world env req = ([], inr response)
      /\ status response = 400
      /\ forall data p, ~ identity_valid lib req data p)
  \/ (exists data p v,
        identity_valid lib req data p
        /\ token_supplied req = true
        /\ outcome (verification lib world env req) = inr v
        /\ ok v = false
        /\ createReservation lib world env req
           = (trace (verification lib world env req),
              inr (recaptcha_failed v)))
  \/ (exists data p,
        identity_valid lib req data p /\ risk_passed lib world env req).
Proof.
  destruct (UserSchema_safeParse lib (Body.name (body req))
              (Body.surname (body req)) (Body.email (body req))
              (Body.phone (body req))) as [fieldErrors | data] eqn:Hparse.
  { left. unfold createReservation. rewrite Hparse.
    eexists. split; [reflexivity |]. split; [reflexivity |].
    intros data p (Hparse' & _). congruence. }
  destruct (parsePhoneNumberFromString lib (UserData.phone data) "GR")
    as [p |] eqn:Hphone.
  2: { left. unfold createReservation. rewrite Hparse, Hphone.
       exists invalid_phone. split; [reflexivity |]. split; [reflexivity |].
       intros data' p' (Hparse' & Hphone' & _).
       rewrite Hparse in Hparse'. injection Hparse' as <-. congruence. }
  destruct (isValid p) eqn:Hvalid.
  2: { left. unfold createReservation. rewrite Hparse, Hphone, Hvalid.
       exists invalid_phone. split; [reflexivity |]. split; [reflexivity |].
       intros data' p' (Hparse' & Hphone' & Hvalid').
       rewrite Hparse in Hparse'. injection Hparse' as <-.
       rewrite Hphone in Hphone'. injection Hphone' as <-. congruence. }
  assert (Hid : identity_valid lib req data p) by now repeat split.
  right.
  destruct (token_supplied req) eqn:Htok.
  2: { right. exists data, p. split; [exact Hid |]. intros H. congruence. }
  destruct (verify_returns lib world env (Body.recaptcha (body req))
              (verify_options env req)) as [v Hv].
  destruct (ok v) eqn:Hok.
  - right. exists data, p. split; [exact Hid |]. intros _. now exists v.
  - left. exists data, p, v. repeat split; try assumption.
    now apply (create_blocked lib world env req data p v).
Qed.

End CreateRoute.

(** ** What the create route reaches *)

Section CreateReach.

Variable lib : Lib.
Variable world : World.
Variable env : Env.

(** The mailer reaches neither the backend nor the scoring service. *)
Lemma mailer_reach payload :
  queries (trace (sendReservationEmail lib world env payload)) = []
  /\ round_trips (trace (sendReservationEmail lib world env payload)) = [].
Proof.
  destruct (mailer_cases lib world env payload)
    as [(e & t & -> & [-> | ->]) | (m & ->)]; split; reflexivity.
Qed.

(** The response block reaches neither of them either, and dispatches
    what the mailer dispatches. *)
Lemma respond_to_create_reach result :
  queries (trace (respond_to_create lib world env result)) = []
  /\ round_trips (trace (respond_to_create lib world env result)) = []
  /\ (dispatches (trace (respond_to_create lib world env result)) = []
      \/ is_str (get (Some result) "code") "CREATED_ACTIVE"
         || is_str (get (Some result) "code") "CREATED_PENDING" = true
         /\ exists m,
              sendReservationEmail lib world env (Some result)
              = ([EvLog "FINE"; EvSendMail m],
                 if sendMail world m then inr tt
                 else inl (Rejected "transporter.sendMail"))
              /\ dispatches (trace (respond_to_create lib world env result))
                 = [m]).
Proof.
  rewrite respond_to_create_trace.
  destruct (_ || _); [| repeat split; now left].
  destruct (mailer_reach (Some result)) as [Hq Hr].
  split; [exact Hq |]. split; [exact Hr |].
  destruct (mailer_cases lib world env (Some result))
    as [(e & t & H & [-> | ->]) | (m & H)]; rewrite H.
  - now left.
  - now left.
  - right. split; [reflexivity |]. exists m. now split.
Qed.


(** X12. A notification leaves the create route only after the backend
    answered a created outcome to a request that passed validation and
    verification: a request that is invalid, one whose token is
    rejected, and one on which the backend throws dispatch nothing; and
    a message that is dispatched is the only one. *)
Theorem notification_only_after_created_outcome req m :
  In m (dispatches (trace (createReservation lib world env req))) ->
  exists rows,
    delegated lib world env req rows
    /\ is_str (get (Some (first_result rows)) "code") "CREATED_ACTIVE"
       || is_str (get (Some (first_result rows)) "code") "CREATED_PENDING"
       = true
    /\ dispatches (trace (createReservation lib world env req)) = [m]
    /\ dispatches
         (trace (sendReservationEmail lib world env (Some (first_result rows))))
       = [m].
Proof.
  destruct (create_cases lib world env req)
    as [(response & -> & _) | [(data & p & v & _ & _ & _ & _ & ->)
                              | (data & p & Hid & Hrisk)]].
  - intros [].
  - cbn [trace fst].
    destruct (verify_calls lib world env (Body.recaptcha (body req))
                (verify_options env req)) as [_ Hquiet].
    unfold verification. rewrite Hquiet. intros [].
  - destruct (create_valid lib world env req data p Hid Hrisk) as [-> _].
    rewrite dispatches_app.
    destruct (step_calls lib world env req) as [_ ->].
    cbn [app dispatches flat_map].
    destruct (query world create_sql _) as [rows |] eqn:Hquery; [| intros []].
    fold (dispatches (trace (respond_to_create lib world env (first_result rows)))).
    destruct (respond_to_create_reach (first_result rows))
      as (_ & _ & [-> | (Hcode & m' & Hmail & ->)]); [intros [] |].
    intros [-> | []].
    exists rows. split; [now exists data, p |].
    split; [exact Hcode |]. split; [reflexivity |].
    now rewrite Hmail.
Qed.

(** The round trips of the create route are those of the verification
    it asks for, and it asks for one only for a valid request with a
    token. *)
Lemma create_round_trips req :
  (forall data p, ~ identity_valid lib req data p)
  /\ round_trips (trace (createReservation lib world env req)) = []
  \/ (exists data p, identity_valid lib req data p)
     /\ round_trips (trace (createReservation lib world env req))
        = if token_supplied req
          then round_trips (trace (verification lib world env req))
          else [].
Proof.
  destruct (create_cases lib world env req)
    as [(response & -> & _ & Hinvalid)
       | [(data & p & v & Hid & Htok & _ & _ & ->)
         | (data & p & Hid & Hrisk)]].
  - left. now split.
  - right. split; [now exists data, p |]. now rewrite Htok.
  - right. split; [now exists data, p |].
    destruct (create_valid lib world env req data p Hid Hrisk) as [-> _].
    rewrite round_trips_app, step_trace.
    assert (Hrest :
              round_trips
                (EvQuery create_sql
                   [SqlText (JSON_stringify lib
                               (reservation_payload lib data p req))]
                 :: match query world create_sql
                            [SqlText (JSON_stringify lib
                                        (reservation_payload lib data p req))]
                    with
                    | QueryRows rows =>
                        trace (respond_to_create lib world env
                                 (first_result rows))
                    | QueryThrows => []
                    end) = []).
    { cbn [round_trips flat_map app].
      destruct (query world create_sql _) as [rows |]; [| reflexivity].
      fold (round_trips
              (trace (respond_to_create lib world env (first_result rows)))).
      now destruct (respond_to_create_reach (first_result rows)) as (_ & -> & _). }
    rewrite Hrest, app_nil_r.
    now destruct (token_supplied req).
Qed.

(** X13. The create route contacts the scoring service at most once per
    request, and exactly when the request passed validation and phone
    normalization, carries a token, and a secret is configured: an
    invalid request costs no round trip, and nothing is verified again
    after the backend answered. *)
Theorem scoring_service_contacted_at_most_once req :
  length (round_trips (trace (createReservation lib world env req))) <= 1
  /\ (round_trips (trace (createReservation lib world env req)) <> []
      <-> (exists data p, identity_valid lib req data p)
          /\ token_supplied req = true
          /\ str_truthy (RECAPTCHA_SECRET env) = true).
Proof.
  destruct (create_round_trips req) as [[Hinvalid ->] | [Hid ->]].
  - split; [cbn; lia |].
    split; [intros H; now contradiction H |].
    intros ((data & p & Hid) & _). now contradiction (Hinvalid data p).
  - rewrite verification_round_trips.
    destruct (token_supplied req) eqn:Htok.
    + destruct (str_truthy (RECAPTCHA_SECRET env)); cbn [andb].
      * unfold token_supplied in Htok.
        destruct (maybe_truthy _ Htok) as [tok ->].
        split; [cbn; lia |].
        split; [now intros _ | discriminate].
      * split; [cbn; lia |].
        split; [intros H; now contradiction H | intros (_ & _ & H); discriminate].
    + split; [cbn; lia |].
      split; [intros H; now contradiction H | intros (_ & H & _); discriminate].
Qed.


(** X15. A 200 answer of the create route is one of two things: the
    reCAPTCHA envelope around a rejected verification, with no call to
    the backend; or the created outcome the backend answered, sent
    after exactly one notification that the SMTP server accepted. *)
Theorem ok_answer_is_envelope_or_created req response :
  outcome (createReservation lib world env req) = inr response ->
  status response = 200 ->
  (exists v,
      token_supplied req = true
      /\ outcome (verification lib world env req) = inr v
      /\ ok v = false
      /\ response = recaptcha_failed v
      /\ queries (trace (createReservation lib world env req)) = [])
  \/ (exists rows m,
        delegated lib world env req rows
        /\ is_str (get (Some (first_result rows)) "code") "CREATED_ACTIVE"
           || is_str (get (Some (first_result rows)) "code") "CREATED_PENDING"
           = true
        /\ response = {| status := 200; payload := first_result rows |}
        /\ dispatches (trace (createReservation lib world env req)) = [m]
        /\ sendMail world m = true).
Proof.
  destruct (create_cases lib world env req)
    as [(r & Hrun & H400 & _)
       | [(data & p & v & Hid & Htok & Hv & Hok & Hrun)
         | (data & p & Hid & Hrisk)]].
  - rewrite Hrun. cbn. intros [= <-] H. congruence.
  - rewrite Hrun. cbn [outcome trace fst snd]. intros [= <-] _.
    left. exists v. repeat split; try assumption.
    apply verify_calls.
  - destruct (create_valid lib world env req data p Hid Hrisk) as [Ht ->].
    destruct (query world create_sql _) as [rows |] eqn:Hquery.
    2: { intros [= <-]. discriminate. }
    rewrite respond_to_create_outcome.
    destruct (respond_to_create_reach (first_result rows))
      as (_ & _ & Hmail).
    destruct (_ || _) eqn:Hcode.
    2: { intros [= <-]. cbn [status].
         repeat match goal with
                | |- context [if ?c then _ else _] => destruct c
                end; discriminate. }
    destruct Hmail as [Hnone | (_ & m & Hmail & Hm)].
    { destruct (mailer_cases lib world env (Some (first_result rows)))
        as [(e & t & Hrun & _) | (m & Hrun)].
      - rewrite Hrun. cbn. intros [= <-]. discriminate.
      - rewrite respond_to_create_trace, Hcode, Hrun in Hnone. discriminate. }
    rewrite Hmail. cbn [outcome snd].
    destruct (sendMail world m) eqn:Hsmtp.
    2: { intros [= <-]. discriminate. }
    intros [= <-] _.
    right. exists rows, m.
    split; [now exists data, p |]. split; [exact Hcode |].
    split; [reflexivity |]. split; [| exact Hsmtp].
    rewrite Ht, dispatches_app.
    destruct (step_calls lib world env req) as [_ ->].
    cbn [app dispatches flat_map].
    exact Hm.
Qed.

End CreateReach.

(** ** Validation *)

Section Validation.

Variable lib : Lib.
Variable world : World.
Variable env : Env.





(** What each field of a failed validation contributes is not empty. *)
Lemma issues_of_failed {A} field (issues : list Issue) :
  issues_of lib field (inl issues : list Issue + A) <> [].
Proof.
  discriminate.
Qed.



End Validation.

(** ** All the handlers *)

Section Handlers.

Variable lib : Lib.
Variable world : World.
Variable env : Env.
Variable crypto : Crypto.

(** A handler that queries the backend once inside its [try] and then
    runs [k] on the rows. *)
Lemma queried_handler sql args (k : list json -> IO Response) info :
  let handler :=
    try_catch (rows <- pool_query world sql args ;; k rows)
      (fun _ => ret (server_error info)) in
  trace handler
  = EvQuery sql args
    :: match query world sql args with
       | QueryRows rows => trace (k rows)
       | QueryThrows => []
       end
  /\ outcome handler
     = match query world sql args with
       | QueryRows rows =>
           match outcome (k rows) with
           | inl _ => inr (server_error info)
           | inr response => inr response
           end
       | QueryThrows => inr (server_error info)
       end.
Proof.
  cbv zeta. unfold pool_query.
  destruct (query world sql args) as [rows |].
  - unfold bind, try_catch, emit, ret. cbn [trace outcome fst snd app].
    destruct (k rows) as [t [e | response]]; cbn [trace outcome fst snd app];
      [now rewrite app_nil_r | now split].
  - now split.
Qed.

Lemma confirm_run req :
  trace (confirmReservation lib world env req)
  = EvQuery confirm_sql [SqlText (id req); SqlBool false]
    :: match query world confirm_sql [SqlText (id req); SqlBool false] with
       | QueryRows rows =>
           trace (respond_to_confirm lib world env (first_result rows))
       | QueryThrows => []
       end
  /\ outcome (confirmReservation lib world env req)
     = match query world confirm_sql [SqlText (id req); SqlBool false] with
       | QueryRows rows =>
           match outcome (respond_to_confirm lib world env (first_result rows)) with
           | inl _ => inr (server_error "Αποτυχία επιβεβαίωσης κράτησης")
           | inr response => inr response
           end
       | QueryThrows => inr (server_error "Αποτυχία επιβεβαίωσης κράτησης")
       end.
Proof.
  exact (queried_handler confirm_sql [SqlText (id req); SqlBool false]
           (fun rows => respond_to_confirm lib world env (first_result rows))
           "Αποτυχία επιβεβαίωσης κράτησης").
Qed.

Lemma cancel_run req :
  trace (cancelReservation lib world env req)
  = EvQuery cancel_sql [SqlText (id req); SqlBool false]
    :: match query world cancel_sql [SqlText (id req); SqlBool false] with
       | QueryRows rows =>
           trace (respond_to_cancel lib world env (first_result rows))
       | QueryThrows => []
       end
  /\ outcome (cancelReservation lib world env req)
     = match query world cancel_sql [SqlText (id req); SqlBool false] with
       | QueryRows rows =>
           match outcome (respond_to_cancel lib world env (first_result rows)) with
           | inl _ => inr (server_error "Αποτυχία ακύρωσης κράτησης")
           | inr response => inr response
           end
       | QueryThrows => inr (server_error "Αποτυχία ακύρωσης κράτησης")
       end.
Proof.
  exact (queried_handler cancel_sql [SqlText (id req); SqlBool false]
           (fun rows => respond_to_cancel lib world env (first_result rows))
           "Αποτυχία ακύρωσης κράτησης").
Qed.

(** A read route: the query, and the result as it is. *)
Lemma read_run sql args info :
  try_catch (rows <- pool_query world sql args ;;
             ret {| status := 200; payload := first_result rows |})
    (fun _ => ret (server_error info))
  = ([EvQuery sql args],
     match query world sql args with
     | QueryRows rows => inr {| status := 200; payload := first_result rows |}
     | QueryThrows => inr (server_error info)
     end).
Proof.
  destruct (queried_handler sql args
              (fun rows => ret {| status := 200; payload := first_result rows |})
              info) as [Ht Ho].
  cbv zeta in Ht, Ho.
  destruct (try_catch _ _) as [t o]. cbn [trace outcome fst snd] in Ht, Ho.
  subst t o.
  now destruct (query world sql args).
Qed.

Lemma first_result_missing rows :
  nullish (get (hd_error rows) "result") = true ->
  first_result rows = JObj [("ok", JBool false); ("status", JStr "SERVER_ERROR")].
Proof.
  unfold first_result.
  now destruct (get (hd_error rows) "result") as [[| | | | |] |].
Qed.

(** X18. When the backend answers no row, or a row without a result,
    every route answers the default object [{ ok: false, status:
    SERVER_ERROR }] in place of the result, under the status of an
    outcome it does not recognize: 400 for the create and cancel routes,
    200 for the confirm route and the three read routes; and no
    notification is sent. *)
Theorem missing_result_answers_default req rows :
  nullish (get (hd_error rows) "result") = true ->
  let missing := JObj [("ok", JBool false); ("status", JStr "SERVER_ERROR")] in
  (delegated lib world env req rows ->
   outcome (createReservation lib world env req)
   = inr {| status := 400; payload := missing |}
   /\ dispatches (trace (createReservation lib world env req)) = [])
  /\ (query world confirm_sql [SqlText (id req); SqlBool false] = QueryRows rows ->
      confirmReservation lib world env req
      = ([EvQuery confirm_sql [SqlText (id req); SqlBool false]],
         inr {| status := 200; payload := missing |}))
  /\ (query world cancel_sql [SqlText (id req); SqlBool false] = QueryRows rows ->
      cancelReservation lib world env req
      = ([EvQuery cancel_sql [SqlText (id req); SqlBool false]],
         inr {| status := 400; payload := missing |}))
  /\ (query world upcoming_sql [] = QueryRows rows ->
      getUpcomingProductions world req
      = ([EvQuery upcoming_sql []],
         inr {| status := 200; payload := missing |}))
  /\ (query world availability_sql [SqlText (id req)] = QueryRows rows ->
      getProductionAvailability world req
      = ([EvQuery availability_sql [SqlText (id req)]],
         inr {| status := 200; payload := missing |}))
  /\ (query world reservation_sql [SqlText (id req)] = QueryRows rows ->
      getReservation world req
      = ([EvQuery reservation_sql [SqlText (id req)]],
         inr {| status := 200; payload := missing |})).
Proof.
  intros Hmissing missing.
  assert (Hresult := first_result_missing rows Hmissing). fold missing in Hresult.
  split; [| split; [| split; [| split; [| split]]]].
  - intros (data & p & Hid & Hrisk & Hquery).
    destruct (create_valid lib world env req data p Hid Hrisk) as [-> ->].
    rewrite Hquery, Hresult, dispatches_app.
    destruct (step_calls lib world env req) as [_ ->].
    now split.
  - intros Hquery.
    destruct (confirm_run req) as [Ht Ho].
    rewrite Hquery, Hresult in Ht, Ho.
    destruct (confirmReservation lib world env req) as [t o].
    cbn in Ht, Ho. now subst t o.
  - intros Hquery.
    destruct (cancel_run req) as [Ht Ho].
    rewrite Hquery, Hresult in Ht, Ho.
    destruct (cancelReservation lib world env req) as [t o].
    cbn in Ht, Ho. now subst t o.
  - intros Hquery. unfold getUpcomingProductions.
    now rewrite read_run, Hquery, Hresult.
  - intros Hquery. unfold getProductionAvailability.
    now rewrite read_run, Hquery, Hresult.
  - intros Hquery. unfold getReservation.
    now rewrite read_run, Hquery, Hresult.
Qed.

(** X19. When the backend throws, every route that reached it answers
    the server error, status 500, under its own message, having issued
    its one query and sent no notification. *)
Theorem backend_failure_answers_server_error req :
  (forall sql args, query world sql args = QueryThrows) ->
  (forall data p,
      identity_valid lib req data p -> risk_passed lib world env req ->
      outcome (createReservation lib world env req)
      = inr (server_error "Αποτυχία δημιουργίας κράτησης")
      /\ dispatches (trace (createReservation lib world env req)) = [])
  /\ confirmReservation lib world env req
     = ([EvQuery confirm_sql [SqlText (id req); SqlBool false]],
        inr (server_error "Αποτυχία επιβεβαίωσης κράτησης"))
  /\ cancelReservation lib world env req
     = ([EvQuery cancel_sql [SqlText (id req); SqlBool false]],
        inr (server_error "Αποτυχία ακύρωσης κράτησης"))
  /\ getUpcomingProductions world req
     = ([EvQuery upcoming_sql []],
        inr (server_error "Αποτυχία φόρτωσης λίστας"))
  /\ getProductionAvailability world req
     = ([EvQuery availability_sql [SqlText (id req)]],
        inr (server_error "Αποτυχία φόρτωσης διαθεσιμότητας"))
  /\ getReservation world req
     = ([EvQuery reservation_sql [SqlText (id req)]],
        inr (server_error "Αποτυχία φόρτωσης κράτησης")).
Proof.
  intros Hdown.
  split; [| split; [| split; [| split; [| split]]]].
  - intros data p Hid Hrisk.
    destruct (create_valid lib world env req data p Hid Hrisk) as [-> ->].
    rewrite Hdown, dispatches_app.
    destruct (step_calls lib world env req) as [_ ->].
    now split.
  - destruct (confirm_run req) as [Ht Ho].
    rewrite Hdown in Ht, Ho.
    destruct (confirmReservation lib world env req) as [t o].
    cbn in Ht, Ho. now subst t o.
  - destruct (cancel_run req) as [Ht Ho].
    rewrite Hdown in Ht, Ho.
    destruct (cancelReservation lib world env req) as [t o].
    cbn in Ht, Ho. now subst t o.
  - unfold getUpcomingProductions. now rewrite read_run, Hdown.
  - unfold getProductionAvailability. now rewrite read_run, Hdown.
  - unfold getReservation. now rewrite read_run, Hdown.
Qed.

(** X20. No handler lets an exception escape: whatever the request, the
    backend, the scoring service and the SMTP server do, each of the
    seven handlers answers, and with a status of its own short list.
    The login route answers without reaching anything outside. *)
Theorem every_handler_answers req login_body :
  (exists r, outcome (createReservation lib world env req) = inr r
             /\ In (status r) [200; 400; 404; 409; 500])
  /\ (exists r, outcome (confirmReservation lib world env req) = inr r
                /\ In (status r) [200; 500])
  /\ (exists r, outcome (cancelReservation lib world env req) = inr r
                /\ In (status r) [200; 400; 403; 404; 500])
  /\ (exists r, outcome (getUpcomingProductions world req) = inr r
                /\ In (status r) [200; 500])
  /\ (exists r, outcome (getProductionAvailability world req) = inr r
                /\ In (status r) [200; 500])
  /\ (exists r, outcome (getReservation world req) = inr r
                /\ In (status r) [200; 500])
  /\ (exists r, login lib crypto login_body = ([], inr r)
                /\ In (status r) [200; 400; 500]).
Proof.
  split; [| split; [| split; [| split; [| split; [| split]]]]].
  - destruct (create_cases lib world env req)
      as [(r & -> & H400 & _)
         | [(data & p & v & _ & _ & _ & _ & ->) | (data & p & Hid & Hrisk)]].
    + exists r. split; [reflexivity |]. rewrite H400. cbn. tauto.
    + eexists. split; [reflexivity |]. cbn. tauto.
    + destruct (create_valid lib world env req data p Hid Hrisk) as [_ ->].
      destruct (query world create_sql _) as [rows |].
      2: { eexists. split; [reflexivity |]. cbn. tauto. }
      rewrite respond_to_create_outcome.
      repeat match goal with
             | |- context [if ?c then _ else _] => destruct c
             end;
        try destruct (outcome (sendReservationEmail _ _ _ _));
        eexists; (split; [reflexivity |]); cbn; tauto.
  - destruct (confirm_run req) as [_ ->].
    destruct (query world confirm_sql _) as [rows |].
    2: { eexists. split; [reflexivity |]. cbn. tauto. }
    unfold respond_to_confirm.
    destruct (is_str _ _); rewrite ?outcome_bind;
      try destruct (outcome (sendReservationEmail _ _ _ _));
      eexists; (split; [reflexivity |]); cbn; tauto.
  - destruct (cancel_run req) as [_ ->].
    destruct (query world cancel_sql _) as [rows |].
    2: { eexists. split; [reflexivity |]. cbn. tauto. }
    unfold respond_to_cancel.
    repeat match goal with
           | |- context [if ?c then _ else _] => destruct c
           end;
      rewrite ?outcome_bind;
      try destruct (outcome (sendReservationEmail _ _ _ _));
      eexists; (split; [reflexivity |]); cbn; tauto.
  - unfold getUpcomingProductions. rewrite read_run.
    destruct (query world _ _); eexists; (split; [reflexivity |]); cbn; tauto.
  - unfold getProductionAvailability. rewrite read_run.
    destruct (query world _ _); eexists; (split; [reflexivity |]); cbn; tauto.
  - unfold getReservation. rewrite read_run.
    destruct (query world _ _); eexists; (split; [reflexivity |]); cbn; tauto.
  - unfold login.
    destruct (parsePhoneNumberFromString lib _ _) as [p |].
    2: { eexists. split; [reflexivity |]. cbn. tauto. }
    destruct (isValid p); cbn [negb].
    2: { eexists. split; [reflexivity |]. cbn. tauto. }
    destruct (bcrypt_hashSync crypto _ _);
      eexists; (split; [reflexivity |]); cbn; tauto.
Qed.

End Handlers.

(** * The further properties on the sample deployment *)

(** X1 on the sample deployment: the two hostnames of the allow-list. *)
Lemma allowed_hostnames_witness :
  forallb clean
    ["reservations.lappasproductions.gr"; "lappas-tickets.netlify.app"] = true
  /\ RECAPTCHA_ALLOWED_HOSTNAMES Sample.env
     = ["reservations.lappasproductions.gr"; "lappas-tickets.netlify.app"].
Proof.
  split; [reflexivity |].
  apply (allowed_hostnames_read_back Sample.env
           ["reservations.lappasproductions.gr"; "lappas-tickets.netlify.app"]);
    [reflexivity | left; reflexivity].
Defined.

(** X3 on the sample deployment: the low score of the robot. *)
Lemma rejection_reason_witness :
  outcome (verifyRecaptchaV3 Sample.lib (Sample.scored Sample.robot) Sample.env
             (Some "03AGdBq2") Sample.no_options)
  = inr (VFail [JStr "low_score"]
           {| score := Some (Fin (2 # 10)); action := Some "reserve";
              hostname := None |})
  /\ [JStr "low_score"] <> [].
Proof.
  split; [reflexivity |].
  exact (rejection_carries_a_reason Sample.lib (Sample.scored Sample.robot)
           Sample.env (Some "03AGdBq2") Sample.no_options _ _ eq_refl).
Defined.

(** X4 on the sample deployment: the answer to the robot carries its
    score and its action, and no hostname. *)
Lemma answer_carries_witness :
  outcome (verifyRecaptchaV3 Sample.lib (Sample.scored Sample.robot) Sample.env
             (Some "03AGdBq2") Sample.no_options)
  = inr (VFail [JStr "low_score"]
           {| score := Some (Fin (2 # 10)); action := Some "reserve";
              hostname := None |})
  /\ Some (Fin (2 # 10))
     = as_number (get (Some (JObj [("success", JBool true);
                                   ("score", JNum (Fin (2 # 10)));
                                   ("action", JStr "reserve")])) "score").
Proof.
  split; [reflexivity |].
  exact (proj1 (proj1 (answer_carries_what_upstream_supplied
                         Sample.lib (Sample.scored Sample.robot) Sample.env
                         (Some "03AGdBq2") Sample.no_options _ eq_refl)
                  "03AGdBq2" _ eq_refl eq_refl eq_refl)).
Defined.

(** X5 on the sample deployment: the human is accepted, and the
    response was a success that came before the timer. *)
Lemma acceptance_witness :
  outcome (verifyRecaptchaV3 Sample.lib (Sample.scored Sample.human) Sample.env
             (Some "03AGdBq2") Sample.no_options)
  = inr (VOk {| score := Some (Fin (9 # 10)); action := Some "reserve";
                hostname := Some "reservations.lappasproductions.gr" |})
  /\ str_truthy (RECAPTCHA_SECRET Sample.env) = true.
Proof.
  split; [reflexivity |].
  exact (proj1 (acceptance_is_sound Sample.lib (Sample.scored Sample.human)
                  Sample.env (Some "03AGdBq2") Sample.no_options _ eq_refl)).
Defined.

(** X6 on the sample deployment: with a scoring service that never
    answers, the earlier helper never answers. *)
Lemma earlier_helper_witness :
  str_truthy (RECAPTCHA_SECRET Sample.env) = true
  /\ maybe (Some "03AGdBq2") = Some "03AGdBq2"
  /\ verifyRecaptchaV3_earlier Sample.lib (Sample.scored Sample.silent)
       Sample.env (Some "03AGdBq2") Sample.no_options
     = ([EvFetch siteverify
           [("secret", "6Lc-secret"); ("response", "03AGdBq2")]], None).
Proof.
  split; [reflexivity |]. split; [reflexivity |].
  exact (proj1 (earlier_helper_unbounded_caller_first
                  Sample.lib (Sample.scored Sample.silent) Sample.env
                  (Some "03AGdBq2") "03AGdBq2" Sample.no_options
                  eq_refl eq_refl) eq_refl).
Defined.

(** X7 on the sample deployment: both versions accept the human after
    the same round trip of 120 ms. *)
Lemma versions_agree_witness :
  maybe (Body.recaptcha (body Sample.visitor)) = Some "03AGdBq2"
  /\ (120 < 10000)%N
  /\ exists v,
       outcome (verification Sample.lib (Sample.scored Sample.human)
                  Sample.env Sample.visitor) = inr v
       /\ snd (verifyRecaptchaV3_earlier Sample.lib (Sample.scored Sample.human)
                 Sample.env (Body.recaptcha (body Sample.visitor))
                 (verify_options Sample.env Sample.visitor)) = Some v.
Proof.
  split; [reflexivity |]. split; [reflexivity |].
  destruct (versions_agree_at_route
              Sample.lib (Sample.scored Sample.human) Sample.env
              Sample.visitor "03AGdBq2" 120%N _
              eq_refl eq_refl eq_refl eq_refl eq_refl)
    as (v & Hcurrent & Hearlier).
  exists v. now rewrite Hcurrent, Hearlier.
Defined.

(** X9 on the sample deployment: the confirmation of an active
    reservation goes to the person of the outcome, with the QR code of
    the reservation id. *)
Lemma sent_message_witness :
  exists m,
    In m (dispatches
            (trace (sendReservationEmail Sample.lib
                      (Sample.answering "CREATED_ACTIVE") Sample.env
                      (Some (Sample.result "CREATED_ACTIVE")))))
    /\ to m = Some (JStr "a@b.com")
    /\ replyTo m = "tickets@lappasproductions.gr".
Proof.
  assert (Hsent :
            exists m,
              dispatches
                (trace (sendReservationEmail Sample.lib
                          (Sample.answering "CREATED_ACTIVE") Sample.env
                          (Some (Sample.result "CREATED_ACTIVE")))) = [m]).
  { eexists. reflexivity. }
  destruct Hsent as [m Hm].
  assert (Hin : In m (dispatches
                        (trace (sendReservationEmail Sample.lib
                                  (Sample.answering "CREATED_ACTIVE") Sample.env
                                  (Some (Sample.result "CREATED_ACTIVE"))))))
    by (rewrite Hm; now left).
  exists m. split; [exact Hin |].
  destruct (sent_message_is_of_its_kind Sample.lib
              (Sample.answering "CREATED_ACTIVE") Sample.env _ m Hin)
    as (k & png & _ & _ & Hto & Hreply & _).
  now split.
Defined.



(** X12 on the sample deployment: the message of the visitor follows a
    created outcome. *)
Lemma notification_after_created_witness :
  exists m rows,
    dispatches (trace (createReservation Sample.lib
                         (Sample.answering "CREATED_ACTIVE") Sample.env
                         Sample.visitor)) = [m]
    /\ delegated Sample.lib (Sample.answering "CREATED_ACTIVE") Sample.env
         Sample.visitor rows
    /\ is_str (get (Some (first_result rows)) "code") "CREATED_ACTIVE"
       || is_str (get (Some (first_result rows)) "code") "CREATED_PENDING"
       = true.
Proof.
  assert (Hsent :
            exists m,
              dispatches (trace (createReservation Sample.lib
                                   (Sample.answering "CREATED_ACTIVE")
                                   Sample.env Sample.visitor)) = [m]).
  { eexists. reflexivity. }
  destruct Hsent as [m Hm].
  assert (Hin : In m (dispatches
                        (trace (createReservation Sample.lib
                                  (Sample.answering "CREATED_ACTIVE")
                                  Sample.env Sample.visitor))))
    by (rewrite Hm; now left).
  destruct (notification_only_after_created_outcome
              Sample.lib (Sample.answering "CREATED_ACTIVE") Sample.env
              Sample.visitor m Hin)
    as (rows & Hdelegated & Hcode & _).
  exists m, rows. repeat split; assumption.
Defined.


(** X15 on the sample deployment: the 200 of the visitor is a created
    outcome whose notification the SMTP server accepted. *)
Lemma ok_answer_witness :
  outcome (createReservation Sample.lib (Sample.answering "CREATED_ACTIVE")
             Sample.env Sample.visitor)
  = inr {| status := 200; payload := Sample.result "CREATED_ACTIVE" |}
  /\ exists m,
       dispatches (trace (createReservation Sample.lib
                            (Sample.answering "CREATED_ACTIVE") Sample.env
                            Sample.visitor)) = [m]
       /\ sendMail (Sample.answering "CREATED_ACTIVE") m = true.
Proof.
  split; [reflexivity |].
  destruct (ok_answer_is_envelope_or_created
              Sample.lib (Sample.answering "CREATED_ACTIVE") Sample.env
              Sample.visitor
              {| status := 200; payload := Sample.result "CREATED_ACTIVE" |}
              eq_refl eq_refl)
    as [(v & _ & _ & _ & Henvelope & _) | (rows & m & _ & _ & _ & Hm & Hsmtp)].
  - discriminate.
  - exists m. now split.
Defined.


(** X18 on the sample deployment with an empty backend: the confirm
    route answers the default object with status 200. *)
Lemma missing_result_witness :
  nullish (get (hd_error (@nil json)) "result") = true
  /\ confirmReservation Sample.lib Sample.no_row Sample.env Sample.visitor
     = ([EvQuery confirm_sql [SqlText "7f0c1d2e"; SqlBool false]],
        inr {| status := 200;
               payload := JObj [("ok", JBool false);
                                ("status", JStr "SERVER_ERROR")] |}).
Proof.
  split; [reflexivity |].
  exact (proj1 (proj2 (missing_result_answers_default
                         Sample.lib Sample.no_row Sample.env
                         Sample.visitor [] eq_refl)) eq_refl).
Defined.

(** X19 on the sample deployment with the backend down: the cancel
    route answers its server error. *)
Lemma backend_failure_witness :
  cancelReservation Sample.lib Sample.backend_down Sample.env Sample.visitor
  = ([EvQuery cancel_sql [SqlText "7f0c1d2e"; SqlBool false]],
     inr (server_error "Αποτυχία ακύρωσης κράτησης")).
Proof.
  exact (proj1 (proj2 (proj2 (backend_failure_answers_server_error
                                Sample.lib Sample.backend_down Sample.env
                                Sample.visitor (fun _ _ => eq_refl))))).
Defined.
